(** * ZigSmartSearch: lemmatized, dictionary-based search (search.py)

    A shallow embedding of [src/search.py] and the properties of its
    query-processing, scoring and ranking functions.

    Modelling conventions.
    - A Python [str] is a [string]; each [ascii] is one code point, so the
      model covers the strings whose code points are below 256 (ASCII and
      the Latin-1 supplement), with Python's own classification of these
      code points for [str.lower], [str.split] and the regular-expression
      classes [\w] and [\s].
    - A Python [int] is a [Z].
    - [Dict[str, str]] is a [gmap string string]; a Python [set] of
      strings is a [gset string].
    - A document is a JSON object, [gmap string json].
    - A call that can raise returns an [option]: [None] stands for the
      exception leaving the function.
    - The global [LEMMATIZER] is a parameter of the functions reading it.
    - [expand_words] and [search_documents] take a dictionary of strings
      and a list of objects; [Raw.expand_words] and [Raw.search_documents]
      take the parsed JSON values of any shape and agree with them on
      well-shaped ones.
    - Output written with [print] is not modelled. *)

From Stdlib Require Import ZArith NArith Ascii String SpecFloat.
From stdpp Require Import base option list sorting gmap strings.

#[local] Set Warnings "-clear-no-such-hyp".

Local Open Scope string_scope.
Local Open Scope Z_scope.

(** ** Characters and strings of Python, restricted to code points < 256 *)

Module PyStr.

Definition code (c : ascii) : N := N_of_ascii c.

Definition between (lo hi : N) (c : ascii) : bool :=
  ((lo <=? code c) && (code c <=? hi))%N.

(** [c.isspace()], which is also the class [\s] of [re] on [str] and the
    separator set of [str.split()] without argument: U+0009..U+000D,
    U+001C..U+0020, U+0085 and U+00A0. *)
Definition is_space (c : ascii) : bool :=
  between 9 13 c || between 28 32 c || (code c =? 133)%N || (code c =? 160)%N.

(** [c.isalnum()]: the ASCII digits and letters, and in the Latin-1
    supplement the letters U+00AA, U+00B5, U+00BA, U+00C0..U+00FF without
    the two operators U+00D7 and U+00F7, and the numeric characters
    U+00B2, U+00B3, U+00B9, U+00BC..U+00BE. *)
Definition is_alnum (c : ascii) : bool :=
  between 48 57 c || between 65 90 c || between 97 122 c
  || (code c =? 170)%N || (code c =? 178)%N || (code c =? 179)%N
  || (code c =? 181)%N || (code c =? 185)%N || (code c =? 186)%N
  || between 188 190 c
  || between 192 214 c || between 216 246 c || between 248 255 c.

(** The class [\w] of [re] on [str]: [isalnum] or the underscore. *)
Definition is_word (c : ascii) : bool :=
  is_alnum c || (code c =? 95)%N.

(** The characters with a lower-case mapping: A..Z and U+00C0..U+00DE
    without U+00D7; the mapping adds 32. *)
Definition is_upper (c : ascii) : bool :=
  between 65 90 c || (between 192 222 c && negb (code c =? 215)%N).

Definition lower_char (c : ascii) : ascii :=
  if is_upper c then ascii_of_N (code c + 32) else c.

Fixpoint map_chars (f : ascii → ascii) (s : string) : string :=
  match s with
  | EmptyString => EmptyString
  | String c s' => String (f c) (map_chars f s')
  end.

(** [s.lower()] *)
Definition lower (s : string) : string := map_chars lower_char s.

(** [re.sub(r"[^\w\s]", " ", s)]: each single character outside both
    classes is replaced by one space. *)
Definition sub_non_word_space (s : string) : string :=
  map_chars (λ c, if negb (is_word c || is_space c) then " "%char else c) s.

(** [s.split()]: the maximal runs of non-space characters, in order.
    [cur] is the run being read. *)
Fixpoint split_go (cur : string) (s : string) : list string :=
  match s with
  | EmptyString => if String.eqb cur "" then [] else [cur]
  | String c s' =>
      if is_space c
      then (if String.eqb cur "" then split_go "" s'
            else cur :: split_go "" s')
      else split_go (cur +:+ String c "") s'
  end.

Definition split (s : string) : list string := split_go "" s.

(** [sub in s] on strings: [sub] starts at some position of [s]. *)
Fixpoint contains (sub s : string) : bool :=
  String.prefix sub s
  || match s with
     | EmptyString => false
     | String _ s' => contains sub s'
     end.

(** [sep.join(l)] *)
Definition join (sep : string) (l : list string) : string :=
  String.concat sep l.

(** Truth value of a string: non-empty. *)
Definition truthy (s : string) : bool := negb (String.eqb s "").

(** All characters of [s] satisfy [p]. *)
Fixpoint all_chars (p : ascii → bool) (s : string) : bool :=
  match s with
  | EmptyString => true
  | String c s' => p c && all_chars p s'
  end.

End PyStr.

(** ** Configuration *)

Definition NON_EMPHASIS_WORDS : gset string :=
  list_to_set [
    "a"; "an"; "the"; "and"; "but"; "if"; "or"; "because"; "as"; "until"; "while";
    "of"; "at"; "by"; "for"; "with"; "about"; "against"; "between"; "into"; "through";
    "during"; "before"; "after"; "above"; "below"; "to"; "from"; "up"; "down"; "in"; "out";
    "on"; "off"; "over"; "under"; "again"; "further"; "then"; "once"; "here"; "there";
    "when"; "where"; "why"; "how"; "all"; "any"; "both"; "each"; "few"; "more"; "most";
    "other"; "some"; "such"; "no"; "nor"; "not"; "only"; "own"; "same"; "so"; "than";
    "too"; "very"; "can"; "will"; "just"; "don"; "should"; "now"; "is"
  ].

(** ** Query processing *)

(** [preprocess_sentence]: lower-case, blank out what is neither [\w] nor
    [\s], split, and keep the non-empty tokens outside the stopword set. *)
Definition preprocess_sentence (sentence : string) : list string :=
  let cleaned := PyStr.sub_non_word_space (PyStr.lower sentence) in
  filter (λ w, PyStr.truthy w = true ∧ w ∉ NON_EMPHASIS_WORDS) (PyStr.split cleaned).

(** ** JSON values and documents *)

(** What [json.load] produces. A float is kept as its IEEE 754 value. *)
#[local] Set Warnings "-register-all".
Inductive json : Type :=
  | JNull
  | JBool (b : bool)
  | JInt (n : Z)
  | JFloat (f : spec_float)
  | JStr (s : string)
  | JArr (l : list json)
  | JObj (m : gmap string json).

Abbreviation Document := (gmap string json).

Module Py.

(** Truth value of a Python object, as [or] tests it. *)
Definition truthy (v : json) : bool :=
  match v with
  | JNull => false
  | JBool b => b
  | JInt n => negb (n =? 0)
  | JFloat (S754_zero _) => false
  | JFloat _ => true
  | JStr s => PyStr.truthy s
  | JArr l => negb (Nat.eqb (length l) 0)
  | JObj m => negb (Nat.eqb (size m) 0)
  end.

(** [d.get(k)]: the value, or [None] when the key is absent. *)
Definition get (d : Document) (k : string) : json := default JNull (d !! k).

(** [a or b] *)
Definition or (a b : json) : json := if truthy a then a else b.

(** [v.lower()]: only a [str] has the method; anything else raises
    [AttributeError]. *)
Definition lower (v : json) : option string :=
  match v with
  | JStr s => Some (PyStr.lower s)
  | _ => None
  end.

(** [sorted(l, key=key, reverse=True)]: the stable sort by decreasing key.
    An element is inserted in front of the first one whose key is not
    larger, so that it stays ahead of the elements with an equal key that
    followed it in the input. *)
Fixpoint insert_reverse {A} (key : A → Z) (x : A) (l : list A) : list A :=
  match l with
  | [] => [x]
  | y :: l' => if key y <=? key x then x :: l else y :: insert_reverse key x l'
  end.

Definition sorted_reverse {A} (key : A → Z) (l : list A) : list A :=
  foldr (insert_reverse key) [] l.

(** The result of a [try] body that reads a file: the exception it
    raised, or the value it returned. *)
Inductive exception := OSError | UnicodeDecodeError | JSONDecodeError.

Inductive outcome (A : Type) : Type :=
  | Raises (e : exception)
  | Returns (a : A).
Global Arguments Raises {A} e.
Global Arguments Returns {A} a.

End Py.

(** ** Dictionary loading *)

(** [load_dictionary]: the body of the [try] is [body]; any exception is
    caught and replaced by the empty dictionary. This is the function on a
    source that parses to a dictionary of strings; [Raw.load_dictionary]
    below is the function on whatever was parsed. *)
Definition load_dictionary (body : Py.outcome (gmap string string)) : gmap string string :=
  match body with
  | Py.Returns d => d
  | Py.Raises _ => ∅
  end.

Section Search.

(** The module-level table [LEMMATIZER = load_lemmatizer()]. *)
Variable LEMMATIZER : gmap string string.

(** [LEMMATIZER.get(word, word)] *)
Definition lemmatize_word (word : string) : string :=
  default word (LEMMATIZER !! word).

(** The inner loop of [expand_words], over the words of one dictionary
    entry. *)
Definition add_expansions (expanded : gset string) (exps : list string) : gset string :=
  foldl (λ expanded exp, {[lemmatize_word exp]} ∪ ({[exp]} ∪ expanded)) expanded exps.

(** One iteration of the outer loop of [expand_words]. *)
Definition expand_step (dictionary : gmap string string)
    (expanded : gset string) (word : string) : gset string :=
  let expanded := {[word]} ∪ expanded in
  let expanded := {[lemmatize_word word]} ∪ expanded in
  add_expansions expanded (PyStr.split (default "" (dictionary !! word))).

(** The set built by [expand_words]. *)
Definition expanded_set (words : list string) (dictionary : gmap string string) : gset string :=
  foldl (expand_step dictionary) ∅ words.

(** [expand_words]: [list(expanded)] enumerates the set in an order the
    language leaves open; [elements] fixes one. *)
Definition expand_words (words : list string) (dictionary : gmap string string) : list string :=
  elements (expanded_set words dictionary).

(** ** Scoring *)

(** [(doc.get(key) or "").lower()] *)
Definition field_text (doc : Document) (key : string) : option string :=
  Py.lower (Py.or (Py.get doc key) (JStr "")).

(** One iteration of either scoring loop; [pt], [pd], [pc] are the points
    for a hit in the title, the description and the content. The state is
    the pair of the local variables [score] and [matched]. *)
Definition score_word (pt pd pc : Z) (title desc content : string)
    (st : Z * gset string) (word : string) : Z * gset string :=
  let '(score, matched) := st in
  if bool_decide (word ∈ matched) then (score, matched)
  else
    let score :=
      if PyStr.contains word title then score + pt
      else if PyStr.contains word desc then score + pd
      else if PyStr.contains word content then score + pc
      else score in
    (score, {[word]} ∪ matched).

(** The loop over [original] and the loop over [expanded]. *)
Definition original_pass (title desc content : string)
    (st : Z * gset string) (original : list string) : Z * gset string :=
  foldl (score_word 70 60 50 title desc content) st original.

Definition expanded_pass (title desc content : string)
    (st : Z * gset string) (expanded : list string) : Z * gset string :=
  foldl (score_word 10 7 5 title desc content) st expanded.

(** [calculate_score] once the three texts are known. *)
Definition score_texts (title desc content : string)
    (original expanded : list string) : Z :=
  let score := 0 in
  let matched : gset string := ∅ in
  let original_sentence := PyStr.join " " original in
  let full_text := title +:+ " " +:+ desc +:+ " " +:+ content in
  let score :=
    if PyStr.truthy original_sentence && PyStr.contains original_sentence full_text
    then score + 90 else score in
  let st := original_pass title desc content (score, matched) original in
  let st := expanded_pass title desc content st expanded in
  st.1.

Definition calculate_score (doc : Document) (original expanded : list string) : option Z :=
  title ← field_text doc "title";
  desc ← field_text doc "description";
  content ← field_text doc "content";
  Some (score_texts title desc content original expanded).

(** ** Search execution *)

(** The loop of [search_documents] filling [results]. *)
Fixpoint collect_results (original_words expanded_words : list string)
    (documents : list Document) (results : list (Document * Z))
    : option (list (Document * Z)) :=
  match documents with
  | [] => Some results
  | doc :: documents' =>
      score ← calculate_score doc original_words expanded_words;
      collect_results original_words expanded_words documents'
        (if 0 <? score then results ++ [(doc, score)] else results)
  end.

(** [search_documents]: [dict_body] and [db_body] are the outcomes of
    reading the dictionary file and the database file. *)
Definition search_documents (query : string)
    (db_body : Py.outcome (list Document))
    (dict_body : Py.outcome (gmap string string))
    : option (list (Document * Z)) :=
  let dictionary := load_dictionary dict_body in
  match db_body with
  | Py.Raises _ => Some []
  | Py.Returns documents =>
      let original_words := preprocess_sentence query in
      let expanded_words := expand_words original_words dictionary in
      results ← collect_results original_words expanded_words documents [];
      Some (Py.sorted_reverse snd results)
  end.

End Search.

(** ** The scenario of the specification *)

Definition demo_dictionary : gmap string string := {[ "fast" := "quick rapid" ]}.
Definition demo_lemmatizer : gmap string string := {[ "running" := "run" ]}.
Definition demo_doc : Document :=
  <[ "title" := JStr "Quick results" ]> {[ "content" := JStr "we run fast tests" ]}.


(** ** Auxiliary notions used to state the properties *)

(** The points a word earns in a scoring loop when it is not yet matched:
    the branches of [score_word] read as a function of the word. *)
Definition points (pt pd pc : Z) (title desc content word : string) : Z :=
  if PyStr.contains word title then pt
  else if PyStr.contains word desc then pd
  else if PyStr.contains word content then pc
  else 0.

(** [a] may stand before [b] in a list sorted by decreasing key. *)
Definition key_ge {A} (key : A → Z) (a b : A) : Prop := key b ≤ key a.

(** The three fields [calculate_score] reads. *)
Definition score_fields : list string := ["title"; "description"; "content"].

Definition is_str (v : json) : bool :=
  match v with JStr _ => true | _ => false end.

(** A field the scorer can read: absent, falsy, or a string. *)
Definition field_ok (doc : Document) (key : string) : bool :=
  match doc !! key with
  | None => true
  | Some v => negb (Py.truthy v) || is_str v
  end.

(** A document all of whose three fields can be read. *)
Definition doc_ok (doc : Document) : bool :=
  forallb (field_ok doc) score_fields.

(** Comparison of two outcomes of the scorer: both raise, or both return
    and the scores compare. *)
Definition score_le (a b : option Z) : Prop :=
  match a, b with
  | Some x, Some y => x ≤ y
  | None, None => True
  | _, _ => False
  end.

(** What the word [w] contributes to the expansion: itself, its lemma,
    the words of its dictionary entry and their lemmas. *)
Definition expansions_of (L dictionary : gmap string string) (w x : string) : Prop :=
  x = w ∨ x = lemmatize_word L w ∨
  ∃ e, e ∈ PyStr.split (default "" (dictionary !! w)) ∧
       (x = e ∨ x = lemmatize_word L e).

(** The documents with a positive score, in input order, with their score. *)
Definition positive_hits (original expanded : list string)
    (documents : list Document) : list (Document * Z) :=
  omap (λ doc, match calculate_score doc original expanded with
               | Some score => if 0 <? score then Some (doc, score) else None
               | None => None
               end) documents.

(** The replacement [re.sub] makes at one character. *)
Definition clean_char (c : ascii) : ascii :=
  if negb (PyStr.is_word c || PyStr.is_space c) then " "%char else c.

(** The number of distinct words of a token list. *)
Definition distinct_count (l : list string) : Z :=
  Z.of_nat (length (remove_dups l)).

(** ** Lemma table loading *)

Module PyStrip.

(** [s.lstrip()], [s.rstrip()] and [s.strip()] without argument: the
    leading and trailing whitespace is dropped. *)
Fixpoint lstrip (s : string) : string :=
  match s with
  | EmptyString => EmptyString
  | String c s' => if PyStr.is_space c then lstrip s' else s
  end.

Fixpoint rstrip (s : string) : string :=
  match s with
  | EmptyString => EmptyString
  | String c s' =>
      let r := rstrip s' in
      if PyStr.is_space c && String.eqb r "" then EmptyString else String c r
  end.

Definition strip (s : string) : string := rstrip (lstrip s).

End PyStrip.

(** The pair [line.split()[0]: line.split()[1]] of the comprehension in
    [load_lemmatizer]; [None] stands for the [IndexError] of a line with
    fewer than two fields. *)
Definition lemma_entry (line : string) : option (string * string) :=
  match PyStr.split line with
  | k :: v :: _ => Some (k, v)
  | _ => None
  end.

(** The dictionary comprehension of [load_lemmatizer] over the lines of
    the file: lines that are blank after [strip] are skipped, a later line
    replaces an earlier one with the same key. *)
Fixpoint build_lemmatizer (lines : list string) (table : gmap string string)
    : option (gmap string string) :=
  match lines with
  | [] => Some table
  | line :: lines' =>
      if PyStr.truthy (PyStrip.strip line)
      then '(k, v) ← lemma_entry line; build_lemmatizer lines' (<[k := v]> table)
      else build_lemmatizer lines' table
  end.

(** [load_lemmatizer]: [body] is the outcome of opening the file and
    reading its lines; an exception of the read and the [IndexError] of
    the comprehension are both caught and replaced by the empty table. *)
Definition load_lemmatizer (body : Py.outcome (list string)) : gmap string string :=
  match body with
  | Py.Returns lines => default ∅ (build_lemmatizer lines ∅)
  | Py.Raises _ => ∅
  end.

(** ** Main *)

(** What [main] itself prints, line by line, with the values that are
    formatted into each line; the lines printed inside [search_documents]
    are left out. *)
Inductive main_line : Type :=
  | UsageLine
  | NoMatchesLine
  | TopLine (n : nat)
  | ResultLine (i : nat) (score : Z) (title : json)
  | DescriptionLine (description : json).

(** How [main] ends: [sys.exit(code)], a normal return, or an exception
    leaving [search_documents]. *)
Inductive main_end : Type :=
  | Exits (code : Z) (out : list main_line)
  | Returned (out : list main_line)
  | Uncaught.

(** [enumerate(l, start)] *)
Fixpoint enumerate {A} (l : list A) (start : nat) : list (nat * A) :=
  match l with
  | [] => []
  | x :: l' => (start, x) :: enumerate l' (S start)
  end.

(** The two lines printed for one result. [doc.get(key, d)] is the value
    of the key when it is present, also when that value is [None]. *)
Definition result_lines (entry : nat * (Document * Z)) : list main_line :=
  let '(i, (doc, score)) := entry in
  [ ResultLine i score (default (JStr "N/A") (doc !! "title"));
    DescriptionLine (default (JStr "") (doc !! "description")) ].

(** [main]: [argv] is [sys.argv]; the query is [argv[1]]. *)
Definition main (LEMMATIZER : gmap string string) (argv : list string)
    (db_body : Py.outcome (list Document))
    (dict_body : Py.outcome (gmap string string)) : main_end :=
  if negb (Nat.eqb (length argv) 3) then Exits 1 [UsageLine]
  else
    let query := default "" (argv !! 1%nat) in
    match search_documents LEMMATIZER query db_body dict_body with
    | None => Uncaught
    | Some results =>
        if Nat.eqb (length results) 0 then Returned [NoMatchesLine]
        else
          Returned (TopLine (Nat.min 10 (length results))
                    :: flat_map result_lines (enumerate (take 10 results) 1))
    end.

(** ** Further auxiliary notions *)

(** The sum of [f] over a list of words. *)
Definition sum_over (f : string → Z) (l : list string) : Z :=
  foldr (λ w acc, f w + acc) 0 l.

(** The points of the exact-phrase bonus. *)
Definition phrase_bonus (title desc content : string) (original : list string) : Z :=
  if PyStr.truthy (PyStr.join " " original)
     && PyStr.contains (PyStr.join " " original)
          (title +:+ " " +:+ desc +:+ " " +:+ content)
  then 90 else 0.

(** The word occurs in one of the three texts. *)
Definition in_some_field (title desc content word : string) : bool :=
  PyStr.contains word title || PyStr.contains word desc || PyStr.contains word content.

(** ** The resources as [json.load] returns them *)

(** The functions below take the dictionary and the database as the JSON
    values that were parsed, of whatever shape; [expand_words] and
    [search_documents] above are their restriction to a dictionary that is
    an object of strings and a database that is a list of objects. *)
Module Raw.

(** [load_dictionary]: [body] is the outcome of the [try] body, the
    exception raised by [open] or [json.load], or the parsed value, which
    is returned unchecked. *)
Definition load_dictionary (body : Py.outcome json) : json :=
  match body with
  | Py.Returns v => v
  | Py.Raises _ => JObj ∅
  end.

(** [dictionary.get(word, '')]: only an object has the method [get];
    [None] stands for the [AttributeError]. *)
Definition get_entry (dictionary : json) (word : string) : option json :=
  match dictionary with
  | JObj m => Some (default (JStr "") (m !! word))
  | _ => None
  end.

(** [v.split()]: only a string has the method [split]. *)
Definition split_value (v : json) : option (list string) :=
  match v with
  | JStr s => Some (PyStr.split s)
  | _ => None
  end.

(** One iteration of the outer loop of [expand_words]. *)
Definition expand_step (LEMMATIZER : gmap string string) (dictionary : json)
    (expanded : gset string) (word : string) : option (gset string) :=
  let expanded := {[word]} ∪ expanded in
  let expanded := {[lemmatize_word LEMMATIZER word]} ∪ expanded in
  v ← get_entry dictionary word;
  exps ← split_value v;
  Some (add_expansions LEMMATIZER expanded exps).

Fixpoint expand_loop (LEMMATIZER : gmap string string) (dictionary : json)
    (expanded : gset string) (words : list string) : option (gset string) :=
  match words with
  | [] => Some expanded
  | word :: words' =>
      expanded' ← expand_step LEMMATIZER dictionary expanded word;
      expand_loop LEMMATIZER dictionary expanded' words'
  end.

(** [expand_words] *)
Definition expand_words (LEMMATIZER : gmap string string) (words : list string)
    (dictionary : json) : option (list string) :=
  elements <$> expand_loop LEMMATIZER dictionary ∅ words.

(** [for doc in documents]: the items the loop visits. A list gives its
    elements, an object its keys, a string its characters; a number, a
    boolean and [None] cannot be iterated ([TypeError]). The order in which
    the keys of an object come plays no role: the first of them already
    makes the scorer raise. *)
Definition iterate (documents : json) : option (list json) :=
  match documents with
  | JArr l => Some l
  | JObj m => Some (JStr <$> elements (dom m))
  | JStr s => Some ((λ c, JStr (String c EmptyString)) <$> list_ascii_of_string s)
  | _ => None
  end.

(** The loop of [search_documents] over the items: [doc.get] exists for an
    object only. *)
Fixpoint collect_items (original_words expanded_words : list string)
    (items : list json) (results : list (Document * Z))
    : option (list (Document * Z)) :=
  match items with
  | [] => Some results
  | JObj doc :: items' =>
      score ← calculate_score doc original_words expanded_words;
      collect_items original_words expanded_words items'
        (if 0 <? score then results ++ [(doc, score)] else results)
  | _ :: _ => None
  end.

(** [search_documents] *)
Definition search_documents (LEMMATIZER : gmap string string) (query : string)
    (db_body : Py.outcome json) (dict_body : Py.outcome json)
    : option (list (Document * Z)) :=
  let dictionary := load_dictionary dict_body in
  match db_body with
  | Py.Raises _ => Some []
  | Py.Returns documents =>
      let original_words := preprocess_sentence query in
      expanded_words ← expand_words LEMMATIZER original_words dictionary;
      items ← iterate documents;
      results ← collect_items original_words expanded_words items [];
      Some (Py.sorted_reverse snd results)
  end.

End Raw.


(** The dictionary can be asked for the word: it is an object, and what it
    holds under the word, if anything, is a string. *)
Definition entry_ok (dictionary : json) (word : string) : bool :=
  match dictionary with
  | JObj m => match m !! word with Some v => is_str v | None => true end
  | _ => false
  end.

(** An item of the database that the scorer can read: an object whose
    three fields are readable. *)
Definition item_ok (item : json) : bool :=
  match item with
  | JObj doc => doc_ok doc
  | _ => false
  end.

(** * Properties *)

(** ** Facts about the string operations *)

#[local] Arguments String.append !_ _ / : simpl nomatch.

Module PyStrFacts.
Import PyStr.

Lemma app_assoc (a b c : string) : (a +:+ b) +:+ c = a +:+ (b +:+ c).
Proof. induction a as [|x a IH]; simpl; [done | by rewrite IH]. Qed.

Lemma app_empty_r (a : string) : a +:+ "" = a.
Proof. induction a as [|x a IH]; simpl; [done | by rewrite IH]. Qed.

Lemma app_snoc_nonempty (a : string) (c : ascii) : a +:+ String c "" ≠ "".
Proof. by destruct a. Qed.

Lemma truthy_true (s : string) : truthy s = true ↔ s ≠ "".
Proof.
  unfold truthy. destruct (String.eqb_spec s ""); simpl; split; try done.
Qed.

Lemma prefix_spec (sub s : string) :
  String.prefix sub s = true ↔ ∃ b, s = sub +:+ b.
Proof.
  revert s. induction sub as [|x sub IH]; intros s.
  - split; [intros _; by exists s | intros _; by destruct s].
  - destruct s as [|y s]; simpl.
    + split; [done | intros [b Hb]; discriminate].
    + destruct (ascii_dec x y) as [->|Hne].
      * rewrite IH. split; intros [b Hb]; exists b; congruence.
      * split; [done | intros [b Hb]; congruence].
Qed.

(** [contains] is the substring relation. *)
Lemma contains_spec (sub s : string) :
  contains sub s = true ↔ ∃ a b, s = a +:+ sub +:+ b.
Proof.
  induction s as [|y s IH]; simpl.
  - rewrite orb_false_r.
    change (match sub with "" => true | String _ _ => false end)
      with (String.prefix sub "").
    rewrite prefix_spec. split.
    + intros [b Hb]. by exists "", b.
    + intros (a & b & Hab). destruct a; [by exists b | discriminate].
  - rewrite orb_true_iff.
    change (match sub with
            | "" => true
            | String a s1' =>
                if ascii_dec a y then String.prefix s1' s else false
            end) with (String.prefix sub (String y s)).
    rewrite prefix_spec, IH. split.
    + intros [[b Hb] | (a & b & Hab)].
      * by exists "", b.
      * exists (String y a), b. simpl. by rewrite Hab.
    + intros (a & b & Hab). destruct a as [|x a]; simpl in Hab.
      * left. by exists b.
      * right. exists a, b. congruence.
Qed.

Lemma contains_trans (w p t : string) :
  contains w p = true → contains p t = true → contains w t = true.
Proof.
  rewrite !contains_spec. intros (a & b & ->) (a' & b' & ->).
  exists (a' +:+ a), (b +:+ b'). by rewrite !app_assoc.
Qed.

Lemma contains_app_l (w t rest : string) :
  contains w t = true → contains w (t +:+ rest) = true.
Proof.
  rewrite !contains_spec. intros (a & b & ->).
  exists a, (b +:+ rest). by rewrite !app_assoc.
Qed.

(** Every element of a joined list occurs in the joined string. *)
Lemma contains_join (sep w : string) (l : list string) :
  w ∈ l → contains w (join sep l) = true.
Proof.
  unfold join. intros Hw. apply contains_spec.
  induction l as [|x l IH]; [by apply elem_of_nil in Hw |].
  apply elem_of_cons in Hw as [->|Hw].
  - destruct l as [|y l]; simpl.
    + exists "", "". by rewrite app_empty_r.
    + by exists "", (sep +:+ String.concat sep (y :: l)).
  - destruct (IH Hw) as (a & b & Hab).
    destruct l as [|y l]; [by apply elem_of_nil in Hw |].
    exists (x +:+ sep +:+ a), b.
    change (String.concat sep (x :: y :: l))
      with (x +:+ sep +:+ String.concat sep (y :: l)).
    by rewrite Hab, !app_assoc.
Qed.

Lemma all_chars_app (p : ascii → bool) (a b : string) :
  all_chars p (a +:+ b) = (all_chars p a && all_chars p b)%bool.
Proof. induction a as [|x a IH]; simpl; [done | by rewrite IH, andb_assoc]. Qed.

Lemma all_chars_map (p : ascii → bool) (f : ascii → ascii) (s : string) :
  (∀ c, p (f c) = true) → all_chars p (map_chars f s) = true.
Proof. intros Hf. induction s as [|x s IH]; simpl; [done | by rewrite Hf, IH]. Qed.

Lemma all_chars_impl (p q : ascii → bool) (s : string) :
  (∀ c, p c = true → q c = true) → all_chars p s = true → all_chars q s = true.
Proof.
  intros Hpq. induction s as [|x s IH]; simpl; [done |].
  rewrite !andb_true_iff. intros [??]. split; auto.
Qed.

(** The tokens of [split] are non-empty runs of non-space characters of
    the input. *)
Lemma split_go_tokens (p : ascii → bool) (s cur t : string) :
  all_chars p s = true →
  all_chars (λ c, p c && negb (is_space c)) cur = true →
  t ∈ split_go cur s →
  t ≠ "" ∧ all_chars (λ c, p c && negb (is_space c)) t = true.
Proof.
  revert cur. induction s as [|x s IH]; intros cur Hs Hcur Ht; simpl in *.
  - destruct (String.eqb_spec cur "") as [->|Hne].
    + by apply elem_of_nil in Ht.
    + apply list_elem_of_singleton in Ht as ->. done.
  - apply andb_true_iff in Hs as [Hx Hs].
    destruct (is_space x) eqn:Hsp.
    + destruct (String.eqb_spec cur "") as [->|Hne].
      * by apply (IH "").
      * apply elem_of_cons in Ht as [->|Ht]; [done | by apply (IH "")].
    + apply (IH (cur +:+ String x "")); [done | | done].
      rewrite all_chars_app, Hcur. simpl. by rewrite Hx, Hsp.
Qed.

Lemma split_tokens (p : ascii → bool) (s t : string) :
  all_chars p s = true → t ∈ split s →
  t ≠ "" ∧ all_chars (λ c, p c && negb (is_space c)) t = true.
Proof. intros Hs. by apply split_go_tokens. Qed.

(** A joined list of non-empty tokens is empty only for the empty list. *)
Lemma join_nonempty (sep : string) (l : list string) :
  Forall (λ t, t ≠ "") l → l ≠ [] → join sep l ≠ "".
Proof.
  unfold join. intros Hl Hne. destruct l as [|x l]; [done |].
  apply Forall_cons in Hl as [Hx _].
  destruct x as [|c x]; [done |]. by destruct l.
Qed.

End PyStrFacts.

(** ** Facts about the two scoring loops *)

Section ScoringLoop.

Variables pt pd pc : Z.
Variables title desc content : string.

Local Abbreviation step := (score_word pt pd pc title desc content).
Local Abbreviation points := (points pt pd pc title desc content).

Lemma score_word_points (score : Z) (matched : gset string) (word : string) :
  step (score, matched) word =
    if bool_decide (word ∈ matched) then (score, matched)
    else (score + points word, {[word]} ∪ matched).
Proof.
  unfold score_word, points. case_bool_decide; [done |].
  repeat case_match; by rewrite ?Z.add_0_r.
Qed.

Lemma score_word_matched (st : Z * gset string) (word : string) :
  word ∈ st.2 → step st word = st.
Proof.
  destruct st as [score matched]. intros Hin.
  rewrite score_word_points. by rewrite bool_decide_eq_true_2.
Qed.

Lemma score_word_adds (st : Z * gset string) (word : string) :
  (step st word).2 = {[word]} ∪ st.2.
Proof.
  destruct st as [score matched]. rewrite score_word_points.
  case_bool_decide; simpl; set_solver.
Qed.

(** Whatever a loop scores, it leaves every word it saw in [matched]. *)
Lemma loop_matched (st : Z * gset string) (l : list string) :
  (foldl step st l).2 = list_to_set l ∪ st.2.
Proof.
  revert st. induction l as [|w l IH]; intros st; simpl.
  - set_solver.
  - rewrite IH, score_word_adds. set_solver.
Qed.

Lemma score_word_in (score : Z) (matched : gset string) (word : string) :
  word ∈ matched → step (score, matched) word = (score, matched).
Proof. apply (score_word_matched (score, matched)). Qed.

Lemma score_word_notin (score : Z) (matched : gset string) (word : string) :
  word ∉ matched →
  step (score, matched) word = (score + points word, {[word]} ∪ matched).
Proof. intros Hin. by rewrite score_word_points, bool_decide_eq_false_2. Qed.

(** Two iterations commute. *)
Lemma score_word_swap (st : Z * gset string) (x y : string) :
  step (step st x) y = step (step st y) x.
Proof.
  destruct st as [score matched].
  destruct (decide (x = y)) as [->|Hxy]; [done |].
  destruct (decide (x ∈ matched)) as [Hx|Hx], (decide (y ∈ matched)) as [Hy|Hy].
  - by rewrite (score_word_in score matched x Hx), (score_word_in score matched y Hy),
      (score_word_in score matched x Hx).
  - rewrite (score_word_in score matched x Hx), (score_word_notin score matched y Hy).
    rewrite score_word_in; [done |].
    apply elem_of_union. by right.
  - rewrite (score_word_in score matched y Hy), (score_word_notin score matched x Hx).
    rewrite score_word_in; [done |].
    apply elem_of_union. by right.
  - rewrite (score_word_notin score matched x Hx), (score_word_notin score matched y Hy).
    rewrite !score_word_notin.
    + f_equal; [lia |].
      by rewrite !(assoc_L (∪)), (comm_L (∪) {[x]} {[y]}).
    + rewrite elem_of_union, elem_of_singleton. naive_solver.
    + rewrite elem_of_union, elem_of_singleton. naive_solver.
Qed.

(** Hence a loop does not depend on the order of its list. *)
Lemma loop_permutation (st : Z * gset string) (l l' : list string) :
  l ≡ₚ l' → foldl step st l = foldl step st l'.
Proof.
  intros Hp. revert st.
  induction Hp as [|x l l' _ IH|x y l|l l' l'' _ IH1 _ IH2]; intros st; simpl.
  - done.
  - apply IH.
  - by rewrite score_word_swap.
  - by rewrite IH1.
Qed.

(** A word that is already matched can be dropped from the list. *)
Lemma loop_drop_matched (st : Z * gset string) (l1 l2 : list string) (w : string) :
  w ∈ st.2 → foldl step st (l1 ++ w :: l2) = foldl step st (l1 ++ l2).
Proof.
  intros Hw. rewrite !foldl_app. simpl. f_equal.
  apply score_word_matched. rewrite loop_matched. set_solver.
Qed.

Hypothesis pt_nonneg : 0 ≤ pt.
Hypothesis pd_nonneg : 0 ≤ pd.
Hypothesis pc_nonneg : 0 ≤ pc.

Lemma points_nonneg (word : string) : 0 ≤ points word.
Proof. unfold points. repeat case_match; lia. Qed.

(** The score never goes down. *)
Lemma loop_score_mono (st : Z * gset string) (l : list string) :
  st.1 ≤ (foldl step st l).1.
Proof.
  revert st. induction l as [|w l IH]; intros st; simpl; [lia |].
  etrans; [| apply IH].
  destruct st as [score matched]. rewrite score_word_points.
  pose proof (points_nonneg w). case_bool_decide; simpl; lia.
Qed.

(** When every word of the list occurs in the title, each distinct word
    that was not matched before earns the title points. *)
Lemma loop_all_in_title (st : Z * gset string) (l : list string) :
  Forall (λ w, PyStr.contains w title = true) l →
  (foldl step st l).1 =
    st.1 + pt * Z.of_nat (size (list_to_set l ∖ st.2 : gset string)).
Proof.
  revert st. induction l as [|w l IH]; intros st Hl; simpl.
  - rewrite difference_disjoint_L by set_solver. rewrite size_empty. lia.
  - apply Forall_cons in Hl as [Hw Hl].
    rewrite IH by done. destruct st as [score matched].
    rewrite score_word_points.
    case_bool_decide as Hin; simpl.
    + replace (({[w]} ∪ list_to_set l) ∖ matched : gset string)
        with (list_to_set l ∖ matched : gset string) by set_solver.
      done.
    + replace (({[w]} ∪ list_to_set l) ∖ matched : gset string)
        with ({[w]} ∪ list_to_set l ∖ ({[w]} ∪ matched) : gset string).
      2:{ apply set_eq. intros x. rewrite !elem_of_union, !elem_of_difference,
            !elem_of_union, !elem_of_singleton.
          destruct (decide (x = w)) as [->|]; naive_solver. }
      rewrite (size_union (C:=gset string) {[w]}) by set_solver.
      rewrite size_singleton.
      unfold points. rewrite Hw. lia.
Qed.

End ScoringLoop.

(** ** Facts about [sorted(..., reverse=True)] *)

Section SortedReverse.

Context {A : Type} (key : A → Z).

Local Abbreviation key_ge := (key_ge key).

Lemma insert_reverse_perm (x : A) (l : list A) :
  Py.insert_reverse key x l ≡ₚ x :: l.
Proof.
  induction l as [|y l IH]; simpl; [done |].
  case_match; [done |]. rewrite IH. apply perm_swap.
Qed.

Lemma sorted_reverse_perm (l : list A) : Py.sorted_reverse key l ≡ₚ l.
Proof.
  induction l as [|x l IH]; simpl; [done |].
  by rewrite insert_reverse_perm, IH.
Qed.

Lemma insert_reverse_sorted (x : A) (l : list A) :
  StronglySorted key_ge l → StronglySorted key_ge (Py.insert_reverse key x l).
Proof.
  induction 1 as [|y l Hl IH Hy]; simpl.
  - repeat constructor.
  - destruct (Z.leb_spec (key y) (key x)) as [Hle|Hlt].
    + constructor; [by constructor |].
      constructor; [done |].
      eapply Forall_impl; [exact Hy |]. unfold key_ge. intros z ?. lia.
    + constructor; [done |].
      rewrite insert_reverse_perm. constructor; [unfold key_ge; lia | done].
Qed.

Lemma sorted_reverse_sorted (l : list A) :
  StronglySorted key_ge (Py.sorted_reverse key l).
Proof.
  induction l as [|x l IH]; simpl; [constructor |].
  by apply insert_reverse_sorted.
Qed.

(** Stability: the elements of one key keep their order. *)
Lemma insert_reverse_stable (k : Z) (x : A) (l : list A) :
  filter (λ a, key a = k) (Py.insert_reverse key x l) =
  filter (λ a, key a = k) (x :: l).
Proof.
  induction l as [|y l IH]; simpl; [done |].
  destruct (Z.leb_spec (key y) (key x)) as [Hle|Hlt]; [done |].
  rewrite (filter_cons _ y), IH, !filter_cons.
  repeat case_decide; try done; lia.
Qed.

Lemma sorted_reverse_stable (k : Z) (l : list A) :
  filter (λ a, key a = k) (Py.sorted_reverse key l) =
  filter (λ a, key a = k) l.
Proof.
  induction l as [|x l IH]; simpl; [done |].
  by rewrite insert_reverse_stable, !filter_cons, IH.
Qed.

End SortedReverse.

(** ** Facts about term expansion *)

Section Expansion.

Variable L : gmap string string.

Lemma elem_of_add_expansions (expanded : gset string) (exps : list string) (x : string) :
  x ∈ add_expansions L expanded exps ↔
  x ∈ expanded ∨ ∃ e, e ∈ exps ∧ (x = e ∨ x = lemmatize_word L e).
Proof.
  unfold add_expansions. revert expanded.
  induction exps as [|e exps IH]; intros expanded; simpl.
  - split; [by left | intros [? | (e & He & _)]; [done | by apply elem_of_nil in He]].
  - rewrite IH, !elem_of_union, !elem_of_singleton. split.
    + intros [[-> | [-> | ?]] | (e' & He' & Hx)].
      * right. exists e. split; [left | by right].
      * right. exists e. split; [left | by left].
      * by left.
      * right. exists e'. split; [by right | done].
    + intros [? | (e' & He' & Hx)]; [by left; right; right |].
      apply elem_of_cons in He' as [-> | He'].
      * left. destruct Hx as [-> | ->]; [right; by left | by left].
      * right. by exists e'.
Qed.

Local Abbreviation expansions_of := (expansions_of L).

Lemma elem_of_expand_step (dictionary : gmap string string)
    (expanded : gset string) (w x : string) :
  x ∈ expand_step L dictionary expanded w ↔
  x ∈ expanded ∨ expansions_of dictionary w x.
Proof.
  unfold expand_step, expansions_of.
  rewrite elem_of_add_expansions, !elem_of_union, !elem_of_singleton.
  naive_solver.
Qed.

Lemma elem_of_expand_loop (dictionary : gmap string string)
    (expanded : gset string) (words : list string) (x : string) :
  x ∈ foldl (expand_step L dictionary) expanded words ↔
  x ∈ expanded ∨ ∃ w, w ∈ words ∧ expansions_of dictionary w x.
Proof.
  revert expanded. induction words as [|w words IH]; intros expanded; simpl.
  - split; [by left | intros [? | (w & Hw & _)]; [done | by apply elem_of_nil in Hw]].
  - rewrite IH, elem_of_expand_step. split.
    + intros [[? | ?] | (w' & Hw' & ?)]; [by left | |].
      * right. exists w. split; [left | done].
      * right. exists w'. split; [by right | done].
    + intros [? | (w' & Hw' & ?)]; [by left; left |].
      apply elem_of_cons in Hw' as [-> | Hw']; [by left; right |].
      right. by exists w'.
Qed.

Lemma elem_of_expand_words (dictionary : gmap string string)
    (words : list string) (x : string) :
  x ∈ expand_words L words dictionary ↔
  ∃ w, w ∈ words ∧ expansions_of dictionary w x.
Proof.
  unfold expand_words, expanded_set.
  rewrite elem_of_elements, elem_of_expand_loop. set_solver.
Qed.

Lemma NoDup_expand_words (dictionary : gmap string string) (words : list string) :
  NoDup (expand_words L words dictionary).
Proof. apply NoDup_elements. Qed.

End Expansion.

(** ** Facts about reading a document *)

Lemma field_text_absent (doc : Document) (key : string) :
  doc !! key = None → field_text doc key = Some "".
Proof. unfold field_text, Py.get. by intros ->. Qed.

Lemma field_text_falsy (doc : Document) (key : string) (v : json) :
  doc !! key = Some v → Py.truthy v = false → field_text doc key = Some "".
Proof. unfold field_text, Py.get, Py.or. intros -> Hv. simpl. by rewrite Hv. Qed.

Lemma field_text_str (doc : Document) (key s : string) :
  doc !! key = Some (JStr s) → field_text doc key = Some (PyStr.lower s).
Proof.
  unfold field_text, Py.get, Py.or. intros ->. simpl.
  unfold PyStr.truthy. by destruct s.
Qed.

Lemma field_text_is_Some (doc : Document) (key : string) :
  is_Some (field_text doc key) ↔ field_ok doc key = true.
Proof.
  unfold field_ok. destruct (doc !! key) as [v|] eqn:Hk.
  - destruct (Py.truthy v) eqn:Hv; simpl.
    + unfold field_text, Py.get, Py.or. rewrite Hk. simpl. rewrite Hv.
      destruct v; simpl; split; try done; by intros [??].
    + rewrite (field_text_falsy _ _ _ Hk Hv). by split.
  - rewrite (field_text_absent _ _ Hk). by split.
Qed.

(** Documents that differ outside a key read the same at that key. *)
Lemma field_text_ext (doc doc' : Document) (key : string) :
  doc !! key = doc' !! key → field_text doc key = field_text doc' key.
Proof. unfold field_text, Py.get. by intros ->. Qed.

Lemma calculate_score_ext (doc doc' : Document) (original expanded : list string) :
  Forall (λ k, field_text doc k = field_text doc' k) score_fields →
  calculate_score doc original expanded = calculate_score doc' original expanded.
Proof.
  unfold score_fields, calculate_score.
  rewrite !Forall_cons. intros (-> & -> & -> & _). done.
Qed.

Lemma calculate_score_is_Some (doc : Document) (original expanded : list string) :
  is_Some (calculate_score doc original expanded) ↔ doc_ok doc = true.
Proof.
  unfold doc_ok, score_fields, calculate_score. simpl.
  rewrite !andb_true_iff, <- !field_text_is_Some.
  destruct (field_text doc "title"), (field_text doc "description"),
    (field_text doc "content"); simpl; split;
    try (intros ([??] & [??] & [??] & _)); try (intros [??]); try done; eauto.
Qed.

(** The scorer on a readable document, with its three texts. *)
Lemma calculate_score_texts (doc : Document) (original expanded : list string) :
  doc_ok doc = true →
  ∃ title desc content,
    field_text doc "title" = Some title ∧
    field_text doc "description" = Some desc ∧
    field_text doc "content" = Some content ∧
    calculate_score doc original expanded =
      Some (score_texts title desc content original expanded).
Proof.
  unfold doc_ok, score_fields, calculate_score. simpl.
  rewrite !andb_true_iff, <- !field_text_is_Some.
  intros ([t ->] & [d ->] & [c ->] & _). by exists t, d, c.
Qed.

(** ** Facts about query normalisation *)

Lemma map_chars_compose (f g : ascii → ascii) (s : string) :
  PyStr.map_chars f (PyStr.map_chars g s) = PyStr.map_chars (λ c, f (g c)) s.
Proof. induction s as [|c s IH]; simpl; [done | by rewrite IH]. Qed.

(** After lower-casing and cleaning, a character is a lower-case word
    character or a space. Checked on each of the 256 characters. *)
Lemma clean_lower_char (c : ascii) :
  let c' := clean_char (PyStr.lower_char c) in
  (PyStr.is_word c' && negb (PyStr.is_upper c') || PyStr.is_space c') = true.
Proof. destruct c as [[] [] [] [] [] [] [] []]; vm_compute; reflexivity. Qed.

Lemma word_not_space (c : ascii) :
  PyStr.is_word c = true → PyStr.is_space c = false.
Proof. destruct c as [[] [] [] [] [] [] [] []]; vm_compute; done. Qed.

Lemma preprocess_tokens (sentence t : string) :
  t ∈ preprocess_sentence sentence →
  t ≠ "" ∧
  PyStr.all_chars (λ c, PyStr.is_word c && negb (PyStr.is_upper c)) t = true ∧
  t ∉ NON_EMPHASIS_WORDS.
Proof.
  unfold preprocess_sentence. rewrite list_elem_of_filter.
  intros [[_ Hstop] Ht]. unfold PyStr.sub_non_word_space, PyStr.lower in Ht.
  rewrite map_chars_compose in Ht.
  eapply (PyStrFacts.split_tokens
            (λ c, PyStr.is_word c && negb (PyStr.is_upper c) || PyStr.is_space c)) in Ht.
  - destruct Ht as [Hne Hall]. split; [done |]. split; [| done].
    eapply PyStrFacts.all_chars_impl; [| exact Hall].
    intros c. simpl. destruct (PyStr.is_space c); simpl.
    + by rewrite andb_false_r.
    + by rewrite orb_false_r, andb_true_r.
  - apply PyStrFacts.all_chars_map. intros c. apply clean_lower_char.
Qed.

Lemma preprocess_join_nonempty (sentence : string) :
  preprocess_sentence sentence ≠ [] →
  PyStr.join " " (preprocess_sentence sentence) ≠ "".
Proof.
  apply PyStrFacts.join_nonempty. apply Forall_forall.
  intros t Ht. by apply preprocess_tokens in Ht as [? _].
Qed.

(** ** Facts about [calculate_score] on the three texts *)

Section ScoreTexts.

Variables title desc content : string.
Variable original : list string.

Lemma score_texts_permutation (E E' : list string) :
  E ≡ₚ E' →
  score_texts title desc content original E =
  score_texts title desc content original E'.
Proof.
  intros Hp. unfold score_texts, expanded_pass.
  by rewrite (loop_permutation _ _ _ _ _ _ _ _ _ Hp).
Qed.

Lemma score_texts_app (E K : list string) :
  score_texts title desc content original E ≤
  score_texts title desc content original (E ++ K).
Proof.
  unfold score_texts, expanded_pass. rewrite foldl_app.
  apply loop_score_mono; lia.
Qed.

Lemma score_texts_mono (E E' : list string) :
  NoDup E → E ⊆ E' →
  score_texts title desc content original E ≤
  score_texts title desc content original E'.
Proof.
  intros Hnd Hsub.
  destruct (submseteq_Permutation E E') as [K HK].
  { apply NoDup_submseteq; [done |]. intros x. apply Hsub. }
  rewrite (score_texts_permutation E' (E ++ K) HK).
  apply score_texts_app.
Qed.

Lemma original_pass_matched (st : Z * gset string) :
  (original_pass title desc content st original).2 = list_to_set original ∪ st.2.
Proof. apply loop_matched. Qed.

Lemma expanded_pass_drop (st : Z * gset string) (e1 e2 : list string) (w : string) :
  w ∈ original →
  expanded_pass title desc content
    (original_pass title desc content st original) (e1 ++ w :: e2) =
  expanded_pass title desc content
    (original_pass title desc content st original) (e1 ++ e2).
Proof.
  intros Hw. apply loop_drop_matched.
  rewrite original_pass_matched. set_solver.
Qed.

Lemma score_texts_drop (e1 e2 : list string) (w : string) :
  w ∈ original →
  score_texts title desc content original (e1 ++ w :: e2) =
  score_texts title desc content original (e1 ++ e2).
Proof. intros Hw. unfold score_texts. by rewrite expanded_pass_drop. Qed.

Lemma size_list_to_set_distinct (l : list string) :
  Z.of_nat (size (list_to_set l : gset string)) = distinct_count l.
Proof.
  unfold distinct_count.
  rewrite <- (size_list_to_set (C:=gset string) (remove_dups l))
    by apply NoDup_remove_dups.
  do 2 f_equal. apply set_eq. intros x.
  by rewrite !elem_of_list_to_set, elem_of_remove_dups.
Qed.

(** The phrase in the title: the bonus and the title points of every
    distinct word. *)
Lemma score_texts_phrase_in_title (expanded : list string) :
  PyStr.join " " original ≠ "" →
  PyStr.contains (PyStr.join " " original) title = true →
  90 + 70 * distinct_count original ≤
  score_texts title desc content original expanded.
Proof.
  intros Hne Hin. unfold score_texts.
  apply PyStrFacts.truthy_true in Hne. rewrite Hne.
  rewrite (PyStrFacts.contains_app_l _ _ _ Hin). simpl.
  etrans; [| apply loop_score_mono; lia].
  unfold original_pass. rewrite loop_all_in_title; try lia.
  - simpl. rewrite difference_empty_L, size_list_to_set_distinct. lia.
  - apply Forall_forall. intros w Hw.
    eapply PyStrFacts.contains_trans; [| exact Hin].
    by apply PyStrFacts.contains_join.
Qed.

End ScoreTexts.

(** ** Facts about the result loop *)

Section Results.

Variables original expanded : list string.

Local Abbreviation hits := (positive_hits original expanded).
Local Abbreviation score_of := (λ doc : Document, calculate_score doc original expanded).

Lemma collect_results_hits (documents : list Document) (results : list (Document * Z)) :
  Forall (λ doc, doc_ok doc = true) documents →
  collect_results original expanded documents results =
    Some (results ++ hits documents)%list.
Proof.
  revert results. induction documents as [|doc documents IH]; intros results Hok.
  - simpl. by rewrite app_nil_r.
  - apply Forall_cons in Hok as [Hdoc Hok].
    apply (calculate_score_is_Some doc original expanded) in Hdoc as [score Hscore].
    unfold positive_hits. simpl. rewrite Hscore. simpl.
    rewrite (IH _ Hok). destruct (0 <? score); simpl; [| done].
    by rewrite <- app_assoc.
Qed.

Lemma elem_of_positive_hits (documents : list Document) (doc : Document) (score : Z) :
  (doc, score) ∈ hits documents ↔
  doc ∈ documents ∧ score_of doc = Some score ∧ 0 < score.
Proof.
  unfold positive_hits. rewrite list_elem_of_omap. split.
  - intros (d & Hd & Hsome). destruct (calculate_score d original expanded) as [s|] eqn:Hs; [| done].
    destruct (Z.ltb_spec 0 s); [| done]. by simplify_eq.
  - intros (Hd & Hs & Hpos). exists doc. split; [done |]. rewrite Hs.
    by destruct (Z.ltb_spec 0 score); [| lia].
Qed.

(** The hits of one score are the documents of that score, in input
    order. *)
Lemma positive_hits_class (documents : list Document) (k : Z) :
  0 < k →
  (filter (λ p : Document * Z, p.2 = k) (hits documents)).*1 =
  filter (λ doc, score_of doc = Some k) documents.
Proof.
  intros Hk. unfold positive_hits.
  induction documents as [|doc documents IH]; [done |].
  rewrite filter_cons. simpl.
  destruct (calculate_score doc original expanded) as [s|] eqn:Hs.
  - destruct (Z.ltb_spec 0 s).
    + rewrite filter_cons. simpl.
      destruct (decide (s = k)) as [->|Hne].
      * rewrite decide_True by done. simpl. f_equal. apply IH.
      * rewrite decide_False by congruence. done.
    + rewrite decide_False; [done |]. intros [= ->]. lia.
  - by rewrite decide_False.
Qed.

End Results.

(** ** Facts about [calculate_score] *)

Lemma calculate_score_permutation (doc : Document) (original E E' : list string) :
  E ≡ₚ E' → calculate_score doc original E = calculate_score doc original E'.
Proof.
  intros Hp. unfold calculate_score.
  destruct (field_text doc "title") as [t|]; [| done].
  destruct (field_text doc "description") as [d|]; [| done].
  destruct (field_text doc "content") as [c|]; [| done].
  simpl. f_equal. by apply score_texts_permutation.
Qed.

(** * The claims *)

(** C1. For every query and every collection of readable documents,
    [search_documents] returns a list that holds exactly the documents
    whose score is positive, each with its score; the list is sorted by
    non-increasing score; and for every score the documents of that score
    appear in their input order (the sort is stable). *)
Theorem search_documents_ranked (L : gmap string string) (query : string)
    (documents : list Document) (dict_body : Py.outcome (gmap string string)) :
  let original := preprocess_sentence query in
  let expanded := expand_words L original (load_dictionary dict_body) in
  Forall (λ doc, doc_ok doc = true) documents →
  ∃ results,
    search_documents L query (Py.Returns documents) dict_body = Some results ∧
    (∀ doc score, (doc, score) ∈ results ↔
       doc ∈ documents ∧ calculate_score doc original expanded = Some score ∧ 0 < score) ∧
    StronglySorted (key_ge snd) results ∧
    (∀ k, 0 < k →
       (filter (λ p : Document * Z, p.2 = k) results).*1 =
       filter (λ doc, calculate_score doc original expanded = Some k) documents).
Proof.
  intros original expanded Hok.
  exists (Py.sorted_reverse snd (positive_hits original expanded documents)).
  split; [| split; [| split]].
  - unfold search_documents. fold original. fold expanded.
    by rewrite (collect_results_hits original expanded documents [] Hok).
  - intros doc score. rewrite <- elem_of_positive_hits.
    by rewrite (sorted_reverse_perm snd).
  - apply sorted_reverse_sorted.
  - intros k Hk. rewrite (sorted_reverse_stable snd k).
    by apply positive_hits_class.
Qed.

Lemma search_documents_ranked_witness :
  ∃ results,
    search_documents ∅ "fast search"
      (Py.Returns [ {[ "content" := JStr "a fast car" ]};
                    {[ "title" := JStr "Slow" ]};
                    {[ "title" := JStr "Fast search" ]};
                    {[ "content" := JStr "fast food"; "description" := JNull ]} ])
      (Py.Raises Py.OSError) = Some results ∧
    (∀ doc score, (doc, score) ∈ results ↔
       doc ∈ [ {[ "content" := JStr "a fast car" ]};
               {[ "title" := JStr "Slow" ]};
               {[ "title" := JStr "Fast search" ]};
               {[ "content" := JStr "fast food"; "description" := JNull ]} ] ∧
       calculate_score doc (preprocess_sentence "fast search")
         (expand_words ∅ (preprocess_sentence "fast search")
            (load_dictionary (Py.Raises Py.OSError))) = Some score ∧ 0 < score) ∧
    StronglySorted (key_ge snd) results ∧
    (∀ k, 0 < k →
       (filter (λ p : Document * Z, p.2 = k) results).*1 =
       filter (λ doc, calculate_score doc (preprocess_sentence "fast search")
                        (expand_words ∅ (preprocess_sentence "fast search")
                           (load_dictionary (Py.Raises Py.OSError))) = Some k)
         [ {[ "content" := JStr "a fast car" ]};
           {[ "title" := JStr "Slow" ]};
           {[ "title" := JStr "Fast search" ]};
           {[ "content" := JStr "fast food"; "description" := JNull ]} ]).
Proof.
  apply (search_documents_ranked ∅ "fast search").
  repeat (constructor; [vm_compute; reflexivity |]). constructor.
Defined.

Example search_documents_demo :
  search_documents ∅ "fast search"
    (Py.Returns [ {[ "content" := JStr "a fast car" ]};
                  {[ "title" := JStr "Slow" ]};
                  {[ "title" := JStr "Fast search" ]};
                  {[ "content" := JStr "fast food"; "description" := JNull ]} ])
    (Py.Raises Py.OSError)
  = Some [ ({[ "title" := JStr "Fast search" ]}, 230);
           ({[ "content" := JStr "a fast car" ]}, 50);
           ({[ "content" := JStr "fast food"; "description" := JNull ]}, 50) ].
Proof. vm_compute. reflexivity. Qed.

(** C2. In the loop over the original words every word is added to
    [matched] whatever it scored, also when it occurs in no field; so a
    word of [original] is skipped by the loop over the expanded words and
    the score is the same with or without it in [expanded]. *)
Theorem original_words_always_matched (title desc content : string)
    (st : Z * gset string) (original e1 e2 : list string) (w : string)
    (doc : Document) :
  w ∈ original →
  w ∈ (original_pass title desc content st original).2 ∧
  expanded_pass title desc content
    (original_pass title desc content st original) (e1 ++ w :: e2) =
  expanded_pass title desc content
    (original_pass title desc content st original) (e1 ++ e2) ∧
  calculate_score doc original (e1 ++ w :: e2) =
  calculate_score doc original (e1 ++ e2).
Proof.
  intros Hw. split; [| split].
  - rewrite original_pass_matched. set_solver.
  - by apply expanded_pass_drop.
  - unfold calculate_score.
    destruct (field_text doc "title") as [t|]; [| done].
    destruct (field_text doc "description") as [d|]; [| done].
    destruct (field_text doc "content") as [c|]; [| done].
    simpl. f_equal. by apply score_texts_drop.
Qed.

Lemma original_words_always_matched_witness :
  "zig" ∈ (original_pass "rust book" "" "" (0, ∅) ["zig"]).2 ∧
  expanded_pass "rust book" "" ""
    (original_pass "rust book" "" "" (0, ∅) ["zig"]) (["rust"] ++ "zig" :: ["book"]) =
  expanded_pass "rust book" "" ""
    (original_pass "rust book" "" "" (0, ∅) ["zig"]) (["rust"] ++ ["book"]) ∧
  calculate_score {[ "title" := JStr "Rust book" ]} ["zig"] (["rust"] ++ "zig" :: ["book"]) =
  calculate_score {[ "title" := JStr "Rust book" ]} ["zig"] (["rust"] ++ ["book"]).
Proof.
  apply (original_words_always_matched "rust book" "" "" (0, ∅) ["zig"]
           ["rust"] ["book"] "zig" {[ "title" := JStr "Rust book" ]}).
  apply list_elem_of_singleton. reflexivity.
Defined.

(** C3, as the claim states it, fails for a query that normalises to no
    token: the empty phrase is a substring of every title, the phrase bonus
    is guarded by the phrase being non-empty, and the score stays below
    90. Query "the", document with the title "Zig". *)
Lemma phrase_in_title_empty_query :
  preprocess_sentence "the" = [] ∧
  field_text {[ "title" := JStr "Zig" ]} "title" = Some "zig" ∧
  PyStr.contains (PyStr.join " " (preprocess_sentence "the")) "zig" = true ∧
  calculate_score {[ "title" := JStr "Zig" ]} (preprocess_sentence "the")
    (expand_words ∅ (preprocess_sentence "the") ∅) = Some 0 ∧
  ¬ (90 + 70 * distinct_count (preprocess_sentence "the") ≤ 0).
Proof. vm_compute. repeat split; congruence. Qed.

(** C3, amended. For every query whose normalised token list is not empty
    and every readable document whose lower-cased title contains the
    normalised phrase, the score is at least 90 plus 70 for each distinct
    token of the normalised query. *)
Theorem phrase_in_title_score (L dictionary : gmap string string)
    (query : string) (doc : Document) (title : string) :
  let original := preprocess_sentence query in
  let expanded := expand_words L original dictionary in
  original ≠ [] →
  doc_ok doc = true →
  field_text doc "title" = Some title →
  PyStr.contains (PyStr.join " " original) title = true →
  ∃ score,
    calculate_score doc original expanded = Some score ∧
    90 + 70 * distinct_count original ≤ score.
Proof.
  intros original expanded Hne Hok Htitle Hin.
  destruct (calculate_score_texts doc original expanded Hok)
    as (t & d & c & Ht & _ & _ & Hscore).
  rewrite Htitle in Ht. injection Ht as <-.
  eexists. split; [exact Hscore |].
  apply score_texts_phrase_in_title; [| done].
  by apply preprocess_join_nonempty.
Qed.

Lemma phrase_in_title_score_witness :
  ∃ score,
    calculate_score {[ "title" := JStr "The Fast Search engine" ]}
      (preprocess_sentence "fast search")
      (expand_words ∅ (preprocess_sentence "fast search") ∅) = Some score ∧
    90 + 70 * distinct_count (preprocess_sentence "fast search") ≤ score.
Proof.
  apply (phrase_in_title_score ∅ ∅ "fast search"
           {[ "title" := JStr "The Fast Search engine" ]} "the fast search engine").
  - vm_compute. discriminate.
  - vm_compute. reflexivity.
  - vm_compute. reflexivity.
  - vm_compute. reflexivity.
Defined.

(** C4. The scenario: the query "fast running" normalises to the tokens
    "fast" and "running"; its expansion holds exactly fast, quick, rapid,
    running and run; and the document scores 65, in whatever order the
    expanded words are enumerated: no phrase bonus, 50 for the original
    "fast" in the content, 10 for the expanded "quick" in the title and 5
    for the expanded "run" in the content. *)
Theorem scenario_fast_running :
  preprocess_sentence "fast running" = ["fast"; "running"] ∧
  expand_words demo_lemmatizer ["fast"; "running"] demo_dictionary
    ≡ₚ ["fast"; "quick"; "rapid"; "running"; "run"] ∧
  calculate_score demo_doc (preprocess_sentence "fast running")
    (expand_words demo_lemmatizer (preprocess_sentence "fast running") demo_dictionary)
    = Some 65 ∧
  (∀ expanded,
     expanded ≡ₚ expand_words demo_lemmatizer ["fast"; "running"] demo_dictionary →
     calculate_score demo_doc ["fast"; "running"] expanded = Some 65) ∧
  field_text demo_doc "title" = Some "quick results" ∧
  field_text demo_doc "description" = Some "" ∧
  field_text demo_doc "content" = Some "we run fast tests" ∧
  PyStr.contains "fast running" "quick results  we run fast tests" = false ∧
  original_pass "quick results" "" "we run fast tests" (0, ∅) ["fast"] = (50, {[ "fast" ]}) ∧
  (original_pass "quick results" "" "we run fast tests" (0, ∅) ["fast"; "running"]).1 = 50 ∧
  points 10 7 5 "quick results" "" "we run fast tests" "quick" = 10 ∧
  points 10 7 5 "quick results" "" "we run fast tests" "rapid" = 0 ∧
  points 10 7 5 "quick results" "" "we run fast tests" "run" = 5.
Proof.
  assert (Hperm : expand_words demo_lemmatizer ["fast"; "running"] demo_dictionary
                    ≡ₚ ["fast"; "quick"; "rapid"; "running"; "run"]).
  { apply (bool_decide_eq_true_1 _). vm_compute. reflexivity. }
  split; [vm_compute; reflexivity |]. split; [exact Hperm |].
  split; [vm_compute; reflexivity |]. split.
  { intros expanded Hp.
    rewrite (calculate_score_permutation demo_doc _ _ _ Hp).
    vm_compute. reflexivity. }
  repeat split; vm_compute; reflexivity.
Qed.

Lemma scenario_fast_running_witness :
  calculate_score demo_doc ["fast"; "running"]
    ["run"; "running"; "rapid"; "quick"; "fast"] = Some 65.
Proof.
  apply scenario_fast_running.
  apply (bool_decide_eq_true_1 _). vm_compute. reflexivity.
Defined.

(** C5, as the claim states it, fails on the underscore: the class [\w]
    holds it, so it is kept, and the token "zig_build" has a character that
    is not alphanumeric. *)
Lemma preprocess_keeps_underscore :
  preprocess_sentence "zig_build" = ["zig_build"] ∧
  PyStr.all_chars PyStr.is_alnum "zig_build" = false.
Proof. vm_compute. split; reflexivity. Qed.

(** C5, amended. For every input string the normaliser lower-cases it and
    replaces every character that is neither a word character
    (alphanumeric or underscore) nor whitespace by one space before
    splitting; hence every token it returns is non-empty, is outside the
    stopword set, and consists only of lower-case word characters:
    alphanumeric characters and underscores. *)
Theorem preprocess_tokens_word_chars (sentence t : string) :
  t ∈ preprocess_sentence sentence →
  (preprocess_sentence sentence =
     filter (λ w, w ≠ "" ∧ w ∉ NON_EMPHASIS_WORDS)
       (PyStr.split
          (PyStr.map_chars
             (λ c, if PyStr.is_alnum c || Ascii.eqb c "_" || PyStr.is_space c
                   then c else " "%char)
             (PyStr.map_chars PyStr.lower_char sentence)))) ∧
  t ≠ "" ∧
  (t ∉ NON_EMPHASIS_WORDS) ∧
  PyStr.all_chars (λ c, PyStr.is_alnum c || Ascii.eqb c "_") t = true ∧
  PyStr.all_chars (λ c, negb (PyStr.is_upper c)) t = true.
Proof.
  intros Ht. split.
  { unfold preprocess_sentence, PyStr.sub_non_word_space, PyStr.lower.
    rewrite !map_chars_compose.
    assert (Hchars : ∀ s,
      PyStr.map_chars (λ c, if negb (PyStr.is_word (PyStr.lower_char c)
                                     || PyStr.is_space (PyStr.lower_char c))
                            then " "%char else PyStr.lower_char c) s =
      PyStr.map_chars (λ c, if PyStr.is_alnum (PyStr.lower_char c)
                               || Ascii.eqb (PyStr.lower_char c) "_"
                               || PyStr.is_space (PyStr.lower_char c)
                            then PyStr.lower_char c else " "%char) s).
    { intros s. induction s as [|c s IH]; simpl; [done |]. rewrite IH. f_equal.
      unfold PyStr.is_word.
      replace (PyStr.code (PyStr.lower_char c) =? 95)%N
        with (Ascii.eqb (PyStr.lower_char c) "_").
      - by destruct (_ || _ || _).
      - generalize (PyStr.lower_char c).
        intros [[] [] [] [] [] [] [] []]; vm_compute; reflexivity. }
    rewrite Hchars. apply list_filter_iff. intros w.
    by rewrite PyStrFacts.truthy_true. }
  apply preprocess_tokens in Ht as (Hne & Hall & Hstop).
  split; [done |]. split; [done |]. split.
  - eapply PyStrFacts.all_chars_impl; [| exact Hall].
    intros c. simpl. rewrite andb_true_iff. intros [Hw _].
    revert Hw. destruct c as [[] [] [] [] [] [] [] []]; vm_compute; done.
  - eapply PyStrFacts.all_chars_impl; [| exact Hall].
    intros c. simpl. rewrite andb_true_iff. by intros [_ ?].
Qed.

Lemma preprocess_tokens_word_chars_witness :
  (preprocess_sentence "Don't use Zig_Build!" =
     filter (λ w, w ≠ "" ∧ w ∉ NON_EMPHASIS_WORDS)
       (PyStr.split
          (PyStr.map_chars
             (λ c, if PyStr.is_alnum c || Ascii.eqb c "_" || PyStr.is_space c
                   then c else " "%char)
             (PyStr.map_chars PyStr.lower_char "Don't use Zig_Build!")))) ∧
  "zig_build" ≠ "" ∧
  ("zig_build" ∉ NON_EMPHASIS_WORDS) ∧
  PyStr.all_chars (λ c, PyStr.is_alnum c || Ascii.eqb c "_") "zig_build" = true ∧
  PyStr.all_chars (λ c, negb (PyStr.is_upper c)) "zig_build" = true.
Proof.
  apply (preprocess_tokens_word_chars "Don't use Zig_Build!" "zig_build").
  apply (bool_decide_eq_true_1 _). vm_compute. reflexivity.
Defined.

Example preprocess_demo :
  preprocess_sentence "Don't use Zig_Build!" = ["t"; "use"; "zig_build"].
Proof. vm_compute. reflexivity. Qed.

(** C6. For every word [w], every lemma table and every dictionary, the
    expansion of the single token [w] holds [w] and the lemma of [w]. A
    word without a lemma entry is its own lemma, and for a word without a
    dictionary entry the expansion holds [w] and its lemma and nothing
    else. The functions are total: nothing is raised. *)
Theorem expand_words_single (L dictionary : gmap string string) (w : string) :
  w ∈ expand_words L [w] dictionary ∧
  lemmatize_word L w ∈ expand_words L [w] dictionary ∧
  lemmatize_word (delete w L) w = w ∧
  (∀ x, x ∈ expand_words L [w] (delete w dictionary) ↔
        x = w ∨ x = lemmatize_word L w).
Proof.
  split; [| split; [| split]].
  - apply elem_of_expand_words. exists w. split; [left | by left].
  - apply elem_of_expand_words. exists w. split; [left | right; by left].
  - unfold lemmatize_word. by rewrite lookup_delete_eq.
  - intros x. rewrite elem_of_expand_words. unfold expansions_of. split.
    + intros (w' & Hw' & Hx). apply list_elem_of_singleton in Hw' as ->.
      rewrite lookup_delete_eq in Hx. simpl in Hx.
      destruct Hx as [? | [? | (e & He & _)]]; [by left | by right |].
      by apply elem_of_nil in He.
    + intros Hx. exists w. split; [left |]. naive_solver.
Qed.

Example expand_words_demo :
  expand_words demo_lemmatizer ["running"] demo_dictionary ≡ₚ ["running"; "run"].
Proof. apply (bool_decide_eq_true_1 _). vm_compute. reflexivity. Qed.

(** C8. The scorer is monotone in the expanded words: for every document,
    every list of original words and all duplicate-free lists [E] and [E']
    with every word of [E] in [E'], scoring with [E] and with [E'] either
    both raise or both return, and the score with [E] is at most the score
    with [E']. *)
Theorem calculate_score_expanded_mono (doc : Document) (original E E' : list string) :
  NoDup E → NoDup E' → E ⊆ E' →
  score_le (calculate_score doc original E) (calculate_score doc original E').
Proof.
  intros HE _ Hsub. unfold calculate_score, score_le.
  destruct (field_text doc "title") as [t|]; [| done].
  destruct (field_text doc "description") as [d|]; [| done].
  destruct (field_text doc "content") as [c|]; [| done].
  simpl. by apply score_texts_mono.
Qed.

Lemma calculate_score_expanded_mono_witness :
  score_le (calculate_score demo_doc ["fast"; "running"] ["quick"])
           (calculate_score demo_doc ["fast"; "running"] ["run"; "fast"; "quick"]).
Proof.
  apply calculate_score_expanded_mono.
  - apply (bool_decide_eq_true_1 _). vm_compute. reflexivity.
  - apply (bool_decide_eq_true_1 _). vm_compute. reflexivity.
  - apply (bool_decide_eq_true_1 _). vm_compute. reflexivity.
Defined.

(** C9. The score does not depend on the order in which the expanded words
    are enumerated: for every document, every list of original words and
    every duplicate-free list of expanded words, each permutation of the
    expanded list gives the same result. *)
Theorem calculate_score_expanded_order (doc : Document) (original E E' : list string) :
  NoDup E → E ≡ₚ E' →
  calculate_score doc original E = calculate_score doc original E'.
Proof. intros _. apply calculate_score_permutation. Qed.

Lemma calculate_score_expanded_order_witness :
  calculate_score demo_doc ["fast"; "running"] ["run"; "fast"; "quick"] =
  calculate_score demo_doc ["fast"; "running"] ["quick"; "run"; "fast"].
Proof.
  apply calculate_score_expanded_order.
  - apply (bool_decide_eq_true_1 _). vm_compute. reflexivity.
  - apply (bool_decide_eq_true_1 _). vm_compute. reflexivity.
Defined.

(** C10. A field among title, description and content whose value is
    present but falsy ([None], [False], 0, the empty string, list or
    object) is read as the empty string, exactly like an absent field, and
    the document scores the same with the falsy value and without the
    field; a document without the field, whose other fields are readable,
    is scored without an exception. *)
Theorem falsy_field_like_absent (doc : Document) (key : string) (v : json)
    (original expanded : list string) :
  key ∈ score_fields →
  Py.truthy v = false →
  field_text (<[key := v]> doc) key = Some "" ∧
  field_text (delete key doc) key = Some "" ∧
  calculate_score (<[key := v]> doc) original expanded =
    calculate_score (delete key doc) original expanded ∧
  (Forall (λ k, k = key ∨ field_ok doc k = true) score_fields →
   is_Some (calculate_score (delete key doc) original expanded)).
Proof.
  intros Hkey Hv.
  assert (Hins : field_text (<[key := v]> doc) key = Some "").
  { apply (field_text_falsy _ _ v); [apply lookup_insert_eq | done]. }
  assert (Hdel : field_text (delete key doc) key = Some "").
  { apply field_text_absent, lookup_delete_eq. }
  split; [done |]. split; [done |]. split.
  - apply calculate_score_ext. apply Forall_forall. intros k _.
    destruct (decide (k = key)) as [-> | Hne]; [congruence |].
    apply field_text_ext.
    by rewrite lookup_insert_ne, lookup_delete_ne.
  - intros Hothers. apply calculate_score_is_Some.
    unfold doc_ok. apply forallb_forall. intros k Hk%list_elem_of_In.
    rewrite Forall_forall in Hothers.
    destruct (Hothers k Hk) as [-> | Hok].
    + unfold field_ok. by rewrite lookup_delete_eq.
    + destruct (decide (k = key)) as [-> | Hne].
      * unfold field_ok. by rewrite lookup_delete_eq.
      * unfold field_ok in *. by rewrite lookup_delete_ne.
Qed.

Lemma falsy_field_like_absent_witness :
  field_text (<["description" := JNull]> demo_doc) "description" = Some "" ∧
  field_text (delete "description" demo_doc) "description" = Some "" ∧
  calculate_score (<["description" := JNull]> demo_doc) ["fast"] ["quick"] =
    calculate_score (delete "description" demo_doc) ["fast"] ["quick"] ∧
  (Forall (λ k, k = "description" ∨ field_ok demo_doc k = true) score_fields →
   is_Some (calculate_score (delete "description" demo_doc) ["fast"] ["quick"])).
Proof.
  apply (falsy_field_like_absent demo_doc "description" JNull ["fast"] ["quick"]).
  - apply (bool_decide_eq_true_1 _). vm_compute. reflexivity.
  - reflexivity.
Defined.

(** * Further properties of the code *)

(** ** More facts about strings *)

Module PyStrMore.
Import PyStr.

Lemma map_chars_app (f : ascii → ascii) (a b : string) :
  map_chars f (a +:+ b) = map_chars f a +:+ map_chars f b.
Proof. induction a as [|x a IH]; simpl; [done | by rewrite IH]. Qed.

Lemma map_chars_fixed (p : ascii → bool) (f : ascii → ascii) (s : string) :
  (∀ c, p c = true → f c = c) → all_chars p s = true → map_chars f s = s.
Proof.
  intros Hf. induction s as [|x s IH]; simpl; [done |].
  rewrite andb_true_iff. intros [Hx Hs]. by rewrite (Hf x Hx), IH.
Qed.

Lemma lower_char_idem (c : ascii) : lower_char (lower_char c) = lower_char c.
Proof. destruct c as [[] [] [] [] [] [] [] []]; vm_compute; reflexivity. Qed.

Lemma lower_idem (s : string) : lower (lower s) = lower s.
Proof.
  unfold lower. induction s as [|x s IH]; simpl; [done |].
  by rewrite lower_char_idem, IH.
Qed.

Lemma lower_char_not_upper (c : ascii) : is_upper (lower_char c) = false.
Proof. destruct c as [[] [] [] [] [] [] [] []]; vm_compute; reflexivity. Qed.

Lemma lower_eq_empty (s : string) : lower s = "" ↔ s = "".
Proof. destruct s; simpl; split; done. Qed.

(** A run of non-space characters is read into the current token. *)
Lemma split_go_run (cur t rest : string) :
  all_chars (λ c, negb (is_space c)) t = true →
  split_go cur (t +:+ rest) = split_go (cur +:+ t) rest.
Proof.
  revert cur. induction t as [|x t IH]; intros cur; simpl.
  - intros _. by rewrite PyStrFacts.app_empty_r.
  - rewrite andb_true_iff, negb_true_iff. intros [Hx Ht].
    rewrite Hx, (IH _ Ht), PyStrFacts.app_assoc. done.
Qed.

(** A space ends the current token. *)
Lemma split_go_app_space (cur a b : string) (c : ascii) :
  is_space c = true →
  split_go cur (a +:+ String c b) = (split_go cur a ++ split b)%list.
Proof.
  intros Hc. revert cur. induction a as [|x a IH]; intros cur; simpl.
  - rewrite Hc. unfold split. by destruct (String.eqb cur "").
  - destruct (is_space x); [| apply IH].
    destruct (String.eqb cur ""); simpl; by rewrite IH.
Qed.

Lemma split_go_space (cur b : string) (c : ascii) :
  is_space c = true → cur ≠ "" →
  split_go cur (String c b) = cur :: split b.
Proof.
  intros Hc Hcur. simpl. rewrite Hc.
  by destruct (String.eqb_spec cur "").
Qed.

Lemma split_all_space (s : string) :
  all_chars is_space s = true → split s = [].
Proof.
  unfold split. induction s as [|x s IH]; simpl; [done |].
  rewrite andb_true_iff. intros [-> Hs]. by apply IH.
Qed.

(** Splitting a list of tokens joined by single spaces gives the tokens
    back. *)
Lemma split_join (l : list string) :
  Forall (λ t, t ≠ "" ∧ all_chars (λ c, negb (is_space c)) t = true) l →
  split (join " " l) = l.
Proof.
  unfold split, join. induction 1 as [|t l [Hne Ht] Hl IH]; [done |].
  destruct l as [|y l].
  - simpl. rewrite <- (PyStrFacts.app_empty_r t) at 1.
    rewrite (split_go_run "" t "" Ht). simpl.
    by destruct t.
  - change (String.concat " " (t :: y :: l))
      with (t +:+ String " " (String.concat " " (y :: l))).
    rewrite (split_go_run "" t _ Ht). change ("" +:+ t) with t.
    rewrite split_go_space by done. f_equal. apply IH.
Qed.

Lemma all_chars_join (p : ascii → bool) (l : list string) :
  p " "%char = true → Forall (λ t, all_chars p t = true) l →
  all_chars p (join " " l) = true.
Proof.
  intros Hsp. unfold join. induction 1 as [|t l Ht Hl IH]; [done |].
  destruct l as [|y l]; [done |].
  change (String.concat " " (t :: y :: l))
    with (t +:+ String " " (String.concat " " (y :: l))).
  rewrite PyStrFacts.all_chars_app, Ht. cbn [all_chars andb]. by rewrite Hsp, IH.
Qed.

(** A substring of a string has only characters of that string. *)
Lemma contains_all_chars (p : ascii → bool) (w t : string) :
  contains w t = true → all_chars p t = true → all_chars p w = true.
Proof.
  rewrite PyStrFacts.contains_spec. intros (a & b & ->).
  rewrite !PyStrFacts.all_chars_app, !andb_true_iff. tauto.
Qed.

End PyStrMore.

(** ** Further facts about query normalisation *)

Lemma clean_char_fixed (c : ascii) :
  (PyStr.is_word c && negb (PyStr.is_upper c) || Ascii.eqb c " ") = true →
  clean_char (PyStr.lower_char c) = c.
Proof. destruct c as [[] [] [] [] [] [] [] []]; vm_compute; done. Qed.

Lemma clean_char_separator (c : ascii) :
  PyStr.is_word c = false →
  PyStr.is_space (clean_char (PyStr.lower_char c)) = true.
Proof. destruct c as [[] [] [] [] [] [] [] []]; vm_compute; done. Qed.

Lemma cleaned_unfold (s : string) :
  PyStr.sub_non_word_space (PyStr.lower s) =
  PyStr.map_chars (λ c, clean_char (PyStr.lower_char c)) s.
Proof.
  unfold PyStr.sub_non_word_space, PyStr.lower. apply map_chars_compose.
Qed.

Lemma filter_all {A} (P : A → Prop) `{!∀ x, Decision (P x)} (l : list A) :
  Forall P l → filter P l = l.
Proof.
  induction 1 as [|x l Hx Hl IH]; [done |].
  by rewrite filter_cons, decide_True, IH.
Qed.

Lemma all_chars_map_impl (p q : ascii → bool) (f : ascii → ascii) (s : string) :
  (∀ c, p c = true → q (f c) = true) →
  PyStr.all_chars p s = true → PyStr.all_chars q (PyStr.map_chars f s) = true.
Proof.
  intros Hf. induction s as [|x s IH]; simpl; [done |].
  rewrite !andb_true_iff. intros [Hx Hs]. split; auto.
Qed.

(** ** Query normalisation: further properties *)

(** X1. The search does not depend on the case of the query: the
    lower-cased query gives the same tokens and the same search result. *)
Theorem query_case_insensitive (L : gmap string string) (query : string)
    (db_body : Py.outcome (list Document))
    (dict_body : Py.outcome (gmap string string)) :
  preprocess_sentence (PyStr.lower query) = preprocess_sentence query ∧
  search_documents L (PyStr.lower query) db_body dict_body =
  search_documents L query db_body dict_body.
Proof.
  assert (H : preprocess_sentence (PyStr.lower query) = preprocess_sentence query).
  { unfold preprocess_sentence. by rewrite PyStrMore.lower_idem. }
  split; [done |]. unfold search_documents. by rewrite H.
Qed.

(** X2. Normalising is idempotent on its own output: the tokens of a
    query, joined by single spaces and normalised again, are the same
    tokens, in the same order and with the same repetitions. *)
Theorem preprocess_join_round_trip (sentence : string) :
  preprocess_sentence (PyStr.join " " (preprocess_sentence sentence)) =
  preprocess_sentence sentence.
Proof.
  set (toks := preprocess_sentence sentence).
  assert (Htoks : Forall (λ t, t ≠ "" ∧
            PyStr.all_chars (λ c, PyStr.is_word c && negb (PyStr.is_upper c)) t = true ∧
            t ∉ NON_EMPHASIS_WORDS) toks).
  { apply Forall_forall. intros t Ht. by apply preprocess_tokens in Ht. }
  unfold preprocess_sentence at 1. rewrite cleaned_unfold.
  rewrite (PyStrMore.map_chars_fixed
             (λ c, PyStr.is_word c && negb (PyStr.is_upper c) || Ascii.eqb c " ")).
  - rewrite PyStrMore.split_join.
    + apply filter_all. eapply Forall_impl; [exact Htoks |].
      intros t (Hne & _ & Hstop). split; [by apply PyStrFacts.truthy_true | done].
    + eapply Forall_impl; [exact Htoks |].
      intros t (Hne & Hall & _). split; [done |].
      eapply PyStrFacts.all_chars_impl; [| exact Hall].
      intros c. simpl. rewrite andb_true_iff. intros [Hw _].
      by rewrite (word_not_space c Hw).
  - intros c. apply clean_char_fixed.
  - apply PyStrMore.all_chars_join; [done |].
    eapply Forall_impl; [exact Htoks |].
    intros t (_ & Hall & _).
    eapply PyStrFacts.all_chars_impl; [| exact Hall].
    intros c. simpl. intros ->. done.
Qed.

(** X3. A string without any word character (empty, or made of
    whitespace and punctuation only) normalises to no token. *)
Theorem preprocess_no_word_char (sentence : string) :
  PyStr.all_chars (λ c, negb (PyStr.is_word c)) sentence = true →
  preprocess_sentence sentence = [].
Proof.
  intros Hs. unfold preprocess_sentence. rewrite cleaned_unfold.
  rewrite PyStrMore.split_all_space; [done |].
  eapply all_chars_map_impl; [| exact Hs].
  intros c. simpl. rewrite negb_true_iff. apply clean_char_separator.
Qed.

Lemma preprocess_no_word_char_witness : preprocess_sentence " ?! -- ... " = [].
Proof. apply preprocess_no_word_char. vm_compute. reflexivity. Defined.

(** X4. On strings whose code points are all below 256, any character
    that is not a word character separates tokens: the tokens of [a], the
    separator and [b] in a row are the tokens of [a] followed by the tokens
    of [b]. (Beyond that range [str.lower] looks at the neighbours of a
    capital sigma, and the property is not stated.) *)
Theorem preprocess_separator (a b : string) (c : ascii) :
  PyStr.is_word c = false →
  preprocess_sentence (a +:+ String c b) =
  (preprocess_sentence a ++ preprocess_sentence b)%list.
Proof.
  intros Hc. unfold preprocess_sentence. rewrite !cleaned_unfold.
  rewrite PyStrMore.map_chars_app.
  change (PyStr.map_chars (λ c0, clean_char (PyStr.lower_char c0)) (String c b))
    with (String (clean_char (PyStr.lower_char c))
            (PyStr.map_chars (λ c0, clean_char (PyStr.lower_char c0)) b)).
  unfold PyStr.split at 1.
  rewrite PyStrMore.split_go_app_space by by apply clean_char_separator.
  by rewrite filter_app.
Qed.

Lemma preprocess_separator_witness :
  preprocess_sentence ("zig build" +:+ String "-" "fast run") =
  (preprocess_sentence "zig build" ++ preprocess_sentence "fast run")%list.
Proof. apply preprocess_separator. reflexivity. Defined.

(** ** Term expansion: further properties *)

(** X5. The expansion of a token list has no duplicates and holds exactly:
    each token, its lemma, the words of the dictionary entry of the token
    itself (the entry is looked up under the token, not under its lemma,
    and the words found are not expanded again), and the lemmas of those
    words. *)
Theorem expand_words_exact (L dictionary : gmap string string) (words : list string) :
  NoDup (expand_words L words dictionary) ∧
  (∀ x, x ∈ expand_words L words dictionary ↔
     ∃ w, w ∈ words ∧
       (x = w ∨ x = lemmatize_word L w ∨
        ∃ e, e ∈ PyStr.split (default "" (dictionary !! w)) ∧
             (x = e ∨ x = lemmatize_word L e))).
Proof.
  split; [apply NoDup_expand_words |].
  intros x. apply elem_of_expand_words.
Qed.

(** X6. The expansion depends on the set of tokens only: token lists with
    the same elements, in any order and with any repetitions, have the
    same expansion up to the order of enumeration. *)
Theorem expand_words_same_tokens (L dictionary : gmap string string)
    (words words' : list string) :
  (∀ w, w ∈ words ↔ w ∈ words') →
  expand_words L words dictionary ≡ₚ expand_words L words' dictionary.
Proof.
  intros Hsame. apply NoDup_Permutation; try apply NoDup_expand_words.
  intros x. rewrite !elem_of_expand_words.
  split; intros (w & Hw & Hx); exists w; (split; [by apply Hsame | done]).
Qed.

Lemma expand_words_same_tokens_witness :
  expand_words demo_lemmatizer ["fast"; "running"; "fast"] demo_dictionary
    ≡ₚ expand_words demo_lemmatizer ["running"; "fast"] demo_dictionary.
Proof.
  apply expand_words_same_tokens. intros w.
  rewrite !elem_of_cons, !elem_of_nil. tauto.
Defined.

(** X7. Tokens that have neither a lemma entry nor a dictionary entry are
    expanded to themselves: the expansion is the list of distinct tokens,
    up to the order of enumeration. *)
Theorem expand_words_no_entries (L dictionary : gmap string string)
    (words : list string) :
  Forall (λ w, L !! w = None ∧ dictionary !! w = None) words →
  expand_words L words dictionary ≡ₚ remove_dups words.
Proof.
  intros Hnone. rewrite Forall_forall in Hnone.
  apply NoDup_Permutation; [apply NoDup_expand_words | apply NoDup_remove_dups |].
  intros x. rewrite elem_of_expand_words, elem_of_remove_dups. split.
  - intros (w & Hw & Hx). destruct (Hnone w Hw) as [HL Hd].
    unfold expansions_of, lemmatize_word in Hx. rewrite HL, Hd in Hx. simpl in Hx.
    destruct Hx as [-> | [-> | (e & He & _)]]; [done | done |].
    by apply elem_of_nil in He.
  - intros Hx. exists x. split; [done | by left].
Qed.

Lemma expand_words_no_entries_witness :
  expand_words demo_lemmatizer ["zig"; "build"; "zig"] demo_dictionary
    ≡ₚ remove_dups ["zig"; "build"; "zig"].
Proof.
  apply expand_words_no_entries.
  repeat (constructor; [split; vm_compute; reflexivity |]). constructor.
Defined.

(** ** Facts about [strip] and blank lines *)

Lemma lstrip_empty (s : string) :
  PyStrip.lstrip s = "" ↔ PyStr.all_chars PyStr.is_space s = true.
Proof.
  induction s as [|x s IH]; simpl; [done |].
  destruct (PyStr.is_space x); simpl; [done |]. split; done.
Qed.

Lemma lstrip_head (s : string) :
  PyStrip.lstrip s = "" ∨
  ∃ c r, PyStrip.lstrip s = String c r ∧ PyStr.is_space c = false.
Proof.
  induction s as [|x s IH]; simpl; [by left |].
  destruct (PyStr.is_space x) eqn:Hx; [done |]. right. by exists x, s.
Qed.

Lemma strip_empty (s : string) :
  PyStrip.strip s = "" ↔ PyStr.all_chars PyStr.is_space s = true.
Proof.
  unfold PyStrip.strip. rewrite <- lstrip_empty.
  destruct (lstrip_head s) as [-> | (c & r & -> & Hc)]; [done |].
  simpl. rewrite Hc. simpl. split; done.
Qed.

Lemma split_go_nonempty (cur s : string) : cur ≠ "" → PyStr.split_go cur s ≠ [].
Proof.
  revert cur. induction s as [|x s IH]; intros cur Hcur; simpl.
  - by destruct (String.eqb_spec cur "").
  - destruct (PyStr.is_space x).
    + by destruct (String.eqb_spec cur "").
    + apply IH, PyStrFacts.app_snoc_nonempty.
Qed.

Lemma split_empty (s : string) :
  PyStr.split s = [] ↔ PyStr.all_chars PyStr.is_space s = true.
Proof.
  split; [| apply PyStrMore.split_all_space].
  unfold PyStr.split. induction s as [|x s IH]; simpl; [done |].
  destruct (PyStr.is_space x); [done |].
  intros H. by apply split_go_nonempty in H.
Qed.

(** A line is skipped by the comprehension exactly when it has no field. *)
Lemma blank_line (line : string) :
  PyStr.truthy (PyStrip.strip line) = false ↔ PyStr.split line = [].
Proof.
  rewrite split_empty, <- strip_empty. unfold PyStr.truthy.
  destruct (String.eqb_spec (PyStrip.strip line) ""); simpl; split; done.
Qed.

(** ** Facts about the lemma table comprehension *)

Lemma build_lemmatizer_app (l1 l2 : list string) (table : gmap string string) :
  build_lemmatizer (l1 ++ l2) table =
  build_lemmatizer l1 table ≫= build_lemmatizer l2.
Proof.
  revert table. induction l1 as [|line l1 IH]; intros table; simpl; [done |].
  destruct (PyStr.truthy (PyStrip.strip line)); [| apply IH].
  destruct (lemma_entry line) as [[k v]|]; simpl; [apply IH | done].
Qed.

Lemma build_lemmatizer_step (line : string) (lines : list string)
    (table : gmap string string) :
  build_lemmatizer (line :: lines) table =
  match PyStr.split line with
  | [] => build_lemmatizer lines table
  | [_] => None
  | k :: v :: _ => build_lemmatizer lines (<[k := v]> table)
  end.
Proof.
  simpl. unfold lemma_entry.
  destruct (PyStr.truthy (PyStrip.strip line)) eqn:Hb.
  - destruct (PyStr.split line) as [|k [|v rest]] eqn:Hs; simpl; try done.
    apply blank_line in Hs. congruence.
  - apply blank_line in Hb. by rewrite Hb.
Qed.

Lemma build_lemmatizer_single_field (lines : list string) (line k : string)
    (table : gmap string string) :
  line ∈ lines → PyStr.split line = [k] → build_lemmatizer lines table = None.
Proof.
  intros Hin Hk. revert table.
  induction lines as [|l lines IH]; intros table; [by apply elem_of_nil in Hin |].
  rewrite build_lemmatizer_step.
  apply elem_of_cons in Hin as [<- | Hin]; [by rewrite Hk |].
  destruct (PyStr.split l) as [|? [|? ?]]; auto.
Qed.

Lemma build_lemmatizer_Some (lines : list string) (table : gmap string string) :
  Forall (λ line, ∀ k, PyStr.split line ≠ [k]) lines →
  is_Some (build_lemmatizer lines table).
Proof.
  intros Hwf. revert table.
  induction Hwf as [|l lines Hl _ IH]; intros table; [by eexists |].
  rewrite build_lemmatizer_step.
  destruct (PyStr.split l) as [|k [|v rest]]; auto. by destruct (Hl k).
Qed.

Lemma build_lemmatizer_other (lines : list string) (table table' : gmap string string)
    (w : string) :
  Forall (λ line, head (PyStr.split line) ≠ Some w) lines →
  build_lemmatizer lines table = Some table' →
  table' !! w = table !! w.
Proof.
  intros Hno. revert table.
  induction Hno as [|l lines Hl _ IH]; intros table; simpl.
  - by intros [= ->].
  - change (build_lemmatizer (l :: lines) table = Some table' → table' !! w = table !! w).
    rewrite build_lemmatizer_step.
    destruct (PyStr.split l) as [|k [|v rest]]; [apply IH | done |].
    intros Hb. rewrite (IH _ Hb). apply lookup_insert_ne.
    intros ->. by apply Hl.
Qed.

(** ** Lemma table loading: properties *)

(** X8. When reading the file raises, or when some line has exactly one
    field, [load_lemmatizer] returns the empty table: one such line loses
    the entries of all the other lines, and every word is then its own
    lemma. *)
Theorem load_lemmatizer_failure (e : Py.exception) (lines : list string)
    (line k : string) :
  line ∈ lines →
  PyStr.split line = [k] →
  load_lemmatizer (Py.Raises e) = ∅ ∧
  load_lemmatizer (Py.Returns lines) = ∅ ∧
  (∀ w, lemmatize_word (load_lemmatizer (Py.Returns lines)) w = w).
Proof.
  intros Hin Hk.
  assert (H : load_lemmatizer (Py.Returns lines) = ∅).
  { unfold load_lemmatizer. by rewrite (build_lemmatizer_single_field lines line k). }
  split; [done |]. split; [done |].
  intros w. rewrite H. unfold lemmatize_word. by rewrite lookup_empty.
Qed.

Lemma load_lemmatizer_failure_witness :
  load_lemmatizer (Py.Raises Py.OSError) = ∅ ∧
  load_lemmatizer (Py.Returns ["running run"; "orphan"; "cars car"]) = ∅ ∧
  (∀ w, lemmatize_word
          (load_lemmatizer (Py.Returns ["running run"; "orphan"; "cars car"])) w = w).
Proof.
  apply (load_lemmatizer_failure Py.OSError
           ["running run"; "orphan"; "cars car"] "orphan" "orphan").
  - apply (bool_decide_eq_true_1 _). vm_compute. reflexivity.
  - vm_compute. reflexivity.
Defined.

(** X9. When no line has exactly one field, the table maps the first field
    of a line to its second field, the last such line winning; blank lines
    and further fields of a line are ignored. *)
Theorem load_lemmatizer_last_wins (l1 l2 : list string) (line k v : string)
    (rest : list string) :
  Forall (λ line', ∀ k', PyStr.split line' ≠ [k']) (l1 ++ line :: l2)%list →
  PyStr.split line = k :: v :: rest →
  Forall (λ line', head (PyStr.split line') ≠ Some k) l2 →
  load_lemmatizer (Py.Returns (l1 ++ line :: l2)%list) !! k = Some v ∧
  lemmatize_word (load_lemmatizer (Py.Returns (l1 ++ line :: l2)%list)) k = v.
Proof.
  intros Hwf Hline Hl2.
  assert (H : load_lemmatizer (Py.Returns (l1 ++ line :: l2)%list) !! k = Some v).
  { unfold load_lemmatizer. rewrite build_lemmatizer_app.
    apply Forall_app in Hwf as [Hwf1 Hwf2].
    destruct (build_lemmatizer_Some l1 ∅ Hwf1) as [t1 Ht1]. rewrite Ht1. simpl.
    change (default ∅ (build_lemmatizer (line :: l2) t1) !! k = Some v).
    rewrite build_lemmatizer_step, Hline.
    apply Forall_cons in Hwf2 as [_ Hwf2].
    destruct (build_lemmatizer_Some l2 (<[k := v]> t1) Hwf2) as [t2 Ht2].
    rewrite Ht2. simpl.
    rewrite (build_lemmatizer_other l2 _ t2 k Hl2 Ht2).
    apply lookup_insert_eq. }
  split; [done |]. unfold lemmatize_word. by rewrite H.
Qed.

Lemma load_lemmatizer_last_wins_witness :
  load_lemmatizer
    (Py.Returns (["running walk"; "   "] ++ "running run gerund" :: ["cars car"])%list)
    !! "running" = Some "run" ∧
  lemmatize_word
    (load_lemmatizer
       (Py.Returns (["running walk"; "   "] ++ "running run gerund" :: ["cars car"])%list))
    "running" = "run".
Proof.
  apply (load_lemmatizer_last_wins ["running walk"; "   "] ["cars car"]
           "running run gerund" "running" "run" ["gerund"]).
  - repeat (constructor; [intros k'; vm_compute; discriminate |]). constructor.
  - vm_compute. reflexivity.
  - repeat (constructor; [vm_compute; discriminate |]). constructor.
Defined.

(** X10. A word that is the first field of no line is its own lemma,
    whether the table could be built or not. *)
Theorem load_lemmatizer_absent (lines : list string) (w : string) :
  Forall (λ line, head (PyStr.split line) ≠ Some w) lines →
  load_lemmatizer (Py.Returns lines) !! w = None ∧
  lemmatize_word (load_lemmatizer (Py.Returns lines)) w = w.
Proof.
  intros Hno.
  assert (H : load_lemmatizer (Py.Returns lines) !! w = None).
  { unfold load_lemmatizer.
    destruct (build_lemmatizer lines ∅) as [t|] eqn:Hb; simpl; [| apply lookup_empty].
    rewrite (build_lemmatizer_other lines ∅ t w Hno Hb). apply lookup_empty. }
  split; [done |]. unfold lemmatize_word. by rewrite H.
Qed.

Lemma load_lemmatizer_absent_witness :
  load_lemmatizer (Py.Returns ["running run"; "cars car"]) !! "run" = None ∧
  lemmatize_word (load_lemmatizer (Py.Returns ["running run"; "cars car"])) "run" = "run".
Proof.
  apply load_lemmatizer_absent.
  repeat (constructor; [vm_compute; discriminate |]). constructor.
Defined.

(** ** Facts about sums over words *)

Lemma sum_over_perm (f : string → Z) (l l' : list string) :
  l ≡ₚ l' → sum_over f l = sum_over f l'.
Proof.
  induction 1 as [|x l l' _ IH|x y l|l l' l'' _ IH1 _ IH2].
  - done.
  - change (f x + sum_over f l = f x + sum_over f l'). lia.
  - change (f y + (f x + sum_over f l) = f x + (f y + sum_over f l)). lia.
  - lia.
Qed.

Lemma sum_over_nonneg (f : string → Z) (l : list string) :
  (∀ w, 0 ≤ f w) → 0 ≤ sum_over f l.
Proof.
  intros Hf. unfold sum_over. induction l as [|x l IH]; simpl; [lia |].
  specialize (Hf x). lia.
Qed.

Lemma sum_over_le (f : string → Z) (b : Z) (l : list string) :
  (∀ w, f w ≤ b) → sum_over f l ≤ b * Z.of_nat (length l).
Proof.
  intros Hf. unfold sum_over. induction l as [|x l IH]; simpl length; simpl foldr; [lia |].
  specialize (Hf x). lia.
Qed.

Lemma sum_over_elem (f : string → Z) (l : list string) (w : string) :
  (∀ x, 0 ≤ f x) → w ∈ l → f w ≤ sum_over f l.
Proof.
  intros Hf Hw. induction l as [|x l IH]; [by apply elem_of_nil in Hw |].
  change (sum_over f (x :: l)) with (f x + sum_over f l).
  pose proof (sum_over_nonneg f l Hf). pose proof (Hf x).
  apply elem_of_cons in Hw as [-> | Hw]; [lia |]. specialize (IH Hw). lia.
Qed.

Lemma sum_over_zero (f : string → Z) (l : list string) :
  (∀ x, 0 ≤ f x) → sum_over f l = 0 ↔ Forall (λ w, f w = 0) l.
Proof.
  intros Hf. induction l as [|x l IH].
  - split; [constructor | done].
  - change (sum_over f (x :: l)) with (f x + sum_over f l).
    pose proof (sum_over_nonneg f l Hf). pose proof (Hf x).
    rewrite Forall_cons, <- IH. lia.
Qed.

(** ** The closed form of a scoring loop *)

Section LoopClosedForm.

Variables pt pd pc : Z.
Variables title desc content : string.

Local Abbreviation step := (score_word pt pd pc title desc content).
Local Abbreviation pts := (points pt pd pc title desc content).

(** A loop adds the points of each distinct word it meets that was not
    matched before. *)
Lemma loop_closed_form (st : Z * gset string) (l : list string) :
  (foldl step st l).1 =
  st.1 + sum_over pts (elements (list_to_set l ∖ st.2 : gset string)).
Proof.
  revert st. induction l as [|w l IH]; intros st.
  - simpl. rewrite difference_disjoint_L by set_solver.
    rewrite elements_empty. simpl. lia.
  - change (foldl step st (w :: l)) with (foldl step (step st w) l).
    rewrite IH. destruct st as [score matched].
    rewrite score_word_points. case_bool_decide as Hin; simpl.
    + replace (({[w]} ∪ list_to_set l) ∖ matched : gset string)
        with (list_to_set l ∖ matched : gset string) by set_solver.
      done.
    + replace (({[w]} ∪ list_to_set l) ∖ matched : gset string)
        with ({[w]} ∪ list_to_set l ∖ ({[w]} ∪ matched) : gset string).
      2:{ apply set_eq. intros x. rewrite !elem_of_union, !elem_of_difference,
            !elem_of_union, !elem_of_singleton.
          destruct (decide (x = w)) as [->|]; naive_solver. }
      rewrite (sum_over_perm pts
                 (elements ({[w]} ∪ list_to_set l ∖ ({[w]} ∪ matched) : gset string))
                 (w :: elements (list_to_set l ∖ ({[w]} ∪ matched) : gset string))).
      * change (sum_over pts (w :: ?l')) with (pts w + sum_over pts l'). lia.
      * apply elements_union_singleton. set_solver.
Qed.

End LoopClosedForm.

Lemma elements_list_to_set (l : list string) :
  elements (list_to_set l : gset string) ≡ₚ remove_dups l.
Proof.
  apply NoDup_Permutation; [apply NoDup_elements | apply NoDup_remove_dups |].
  intros x. by rewrite elem_of_elements, elem_of_list_to_set, elem_of_remove_dups.
Qed.

Lemma elements_list_to_set_difference (l k : list string) :
  elements (list_to_set l ∖ list_to_set k : gset string)
    ≡ₚ filter (λ w, w ∉ k) (remove_dups l).
Proof.
  apply NoDup_Permutation.
  - apply NoDup_elements.
  - apply NoDup_filter, NoDup_remove_dups.
  - intros x. rewrite elem_of_elements, elem_of_difference, !elem_of_list_to_set,
      list_elem_of_filter, elem_of_remove_dups. tauto.
Qed.

Lemma points_bounds (pt pd pc : Z) (title desc content w : string) :
  0 ≤ pc → pc ≤ pd → pd ≤ pt →
  0 ≤ points pt pd pc title desc content w ≤ pt.
Proof. intros. unfold points. repeat case_match; lia. Qed.

Lemma points_found (pt pd pc : Z) (title desc content w : string) :
  0 ≤ pc → pc ≤ pd → pd ≤ pt →
  in_some_field title desc content w = true →
  pc ≤ points pt pd pc title desc content w.
Proof.
  intros ??? Hin. unfold in_some_field in Hin. unfold points.
  destruct (PyStr.contains w title); [lia |].
  destruct (PyStr.contains w desc); [lia |].
  destruct (PyStr.contains w content); [lia | done].
Qed.

Lemma points_zero (pt pd pc : Z) (title desc content w : string) :
  0 < pc → pc ≤ pd → pd ≤ pt →
  points pt pd pc title desc content w = 0 ↔
  in_some_field title desc content w = false.
Proof.
  intros ???. unfold in_some_field, points.
  destruct (PyStr.contains w title); [simpl; split; [lia | done] |].
  destruct (PyStr.contains w desc); [simpl; split; [lia | done] |].
  destruct (PyStr.contains w content); simpl; split; try done; lia.
Qed.

(** The score as a sum over the distinct words. *)
Lemma score_texts_closed_form (title desc content : string)
    (original expanded : list string) :
  score_texts title desc content original expanded =
  phrase_bonus title desc content original
  + sum_over (points 70 60 50 title desc content) (remove_dups original)
  + sum_over (points 10 7 5 title desc content)
      (filter (λ w, w ∉ original) (remove_dups expanded)).
Proof.
  unfold score_texts, expanded_pass, original_pass.
  rewrite loop_closed_form, loop_matched, loop_closed_form. simpl.
  rewrite difference_empty_L, union_empty_r_L.
  rewrite (sum_over_perm _ _ _ (elements_list_to_set original)).
  rewrite (sum_over_perm _ _ _ (elements_list_to_set_difference expanded original)).
  unfold phrase_bonus. destruct (_ && _); lia.
Qed.

(** ** Scoring: further properties *)

Lemma calculate_score_fields (doc : Document) (title desc content : string)
    (original expanded : list string) :
  field_text doc "title" = Some title →
  field_text doc "description" = Some desc →
  field_text doc "content" = Some content →
  calculate_score doc original expanded =
    Some (score_texts title desc content original expanded).
Proof. unfold calculate_score. by intros -> -> ->. Qed.

Lemma phrase_bonus_bounds (title desc content : string) (original : list string) :
  0 ≤ phrase_bonus title desc content original ≤ 90.
Proof. unfold phrase_bonus. destruct (_ && _); lia. Qed.

(** X11. The score is the phrase bonus, plus for each distinct original
    word the points of the first field holding it (70 title, 60
    description, 50 content), plus for each distinct expanded word that is
    not an original word the points of the first field holding it (10, 7,
    5): every word counts once, for one field. *)
Theorem calculate_score_closed_form (doc : Document) (title desc content : string)
    (original expanded : list string) :
  field_text doc "title" = Some title →
  field_text doc "description" = Some desc →
  field_text doc "content" = Some content →
  calculate_score doc original expanded =
    Some ((if PyStr.truthy (PyStr.join " " original)
              && PyStr.contains (PyStr.join " " original)
                   (title +:+ " " +:+ desc +:+ " " +:+ content)
           then 90 else 0)
          + sum_over (points 70 60 50 title desc content) (remove_dups original)
          + sum_over (points 10 7 5 title desc content)
              (filter (λ w, w ∉ original) (remove_dups expanded))).
Proof.
  intros Ht Hd Hc.
  rewrite (calculate_score_fields doc title desc content _ _ Ht Hd Hc).
  by rewrite score_texts_closed_form.
Qed.

Lemma calculate_score_closed_form_witness :
  calculate_score demo_doc ["fast"; "running"; "fast"] ["run"; "fast"; "quick"] =
    Some ((if PyStr.truthy (PyStr.join " " ["fast"; "running"; "fast"])
              && PyStr.contains (PyStr.join " " ["fast"; "running"; "fast"])
                   ("quick results" +:+ " " +:+ "" +:+ " " +:+ "we run fast tests")
           then 90 else 0)
          + sum_over (points 70 60 50 "quick results" "" "we run fast tests")
              (remove_dups ["fast"; "running"; "fast"])
          + sum_over (points 10 7 5 "quick results" "" "we run fast tests")
              (filter (λ w, w ∉ ["fast"; "running"; "fast"])
                 (remove_dups ["run"; "fast"; "quick"]))).
Proof.
  apply calculate_score_closed_form; vm_compute; reflexivity.
Defined.

(** X12. On a readable document the score is never negative and is at
    most 90, plus 70 for each distinct original word, plus 10 for each
    distinct expanded word that is not an original word. *)
Theorem calculate_score_bounds (doc : Document) (original expanded : list string) :
  doc_ok doc = true →
  ∃ score,
    calculate_score doc original expanded = Some score ∧
    0 ≤ score ∧
    score ≤ 90 + 70 * distinct_count original
            + 10 * Z.of_nat (length (filter (λ w, w ∉ original) (remove_dups expanded))).
Proof.
  intros Hok.
  destruct (calculate_score_texts doc original expanded Hok)
    as (t & d & c & _ & _ & _ & ->).
  eexists. split; [done |]. rewrite score_texts_closed_form.
  pose proof (phrase_bonus_bounds t d c original).
  pose proof (sum_over_nonneg (points 70 60 50 t d c) (remove_dups original)
                (λ w, proj1 (points_bounds 70 60 50 t d c w ltac:(lia) ltac:(lia) ltac:(lia)))).
  pose proof (sum_over_nonneg (points 10 7 5 t d c)
                (filter (λ w, w ∉ original) (remove_dups expanded))
                (λ w, proj1 (points_bounds 10 7 5 t d c w ltac:(lia) ltac:(lia) ltac:(lia)))).
  pose proof (sum_over_le (points 70 60 50 t d c) 70 (remove_dups original)
                (λ w, proj2 (points_bounds 70 60 50 t d c w ltac:(lia) ltac:(lia) ltac:(lia)))).
  pose proof (sum_over_le (points 10 7 5 t d c) 10
                (filter (λ w, w ∉ original) (remove_dups expanded))
                (λ w, proj2 (points_bounds 10 7 5 t d c w ltac:(lia) ltac:(lia) ltac:(lia)))).
  unfold distinct_count. lia.
Qed.

Lemma calculate_score_bounds_witness :
  ∃ score,
    calculate_score demo_doc ["fast"; "running"] ["run"; "fast"; "quick"] = Some score ∧
    0 ≤ score ∧
    score ≤ 90 + 70 * distinct_count ["fast"; "running"]
            + 10 * Z.of_nat (length (filter (λ w, w ∉ ["fast"; "running"])
                                       (remove_dups ["run"; "fast"; "quick"]))).
Proof. apply calculate_score_bounds. vm_compute. reflexivity. Defined.

Lemma score_zero_iff (doc : Document) (title desc content : string)
    (original expanded : list string) :
  field_text doc "title" = Some title →
  field_text doc "description" = Some desc →
  field_text doc "content" = Some content →
  calculate_score doc original expanded = Some 0 ↔
  (PyStr.truthy (PyStr.join " " original)
   && PyStr.contains (PyStr.join " " original)
        (title +:+ " " +:+ desc +:+ " " +:+ content) = false) ∧
  Forall (λ w, in_some_field title desc content w = false) (original ++ expanded).
Proof.
  intros Ht Hd Hc.
  rewrite (calculate_score_fields doc title desc content _ _ Ht Hd Hc).
  rewrite score_texts_closed_form.
  pose proof (phrase_bonus_bounds title desc content original) as Hb.
  assert (H70 : ∀ w, 0 ≤ points 70 60 50 title desc content w).
  { intros w. apply points_bounds; lia. }
  assert (H10 : ∀ w, 0 ≤ points 10 7 5 title desc content w).
  { intros w. apply points_bounds; lia. }
  pose proof (sum_over_nonneg _ (remove_dups original) H70) as Ho.
  pose proof (sum_over_nonneg _ (filter (λ w, w ∉ original) (remove_dups expanded)) H10) as He.
  pose proof (sum_over_zero _ (remove_dups original) H70) as Zo.
  pose proof (sum_over_zero _ (filter (λ w, w ∉ original) (remove_dups expanded)) H10) as Ze.
  rewrite !Forall_forall in *.
  assert (Hbonus : phrase_bonus title desc content original = 0 ↔
            PyStr.truthy (PyStr.join " " original)
            && PyStr.contains (PyStr.join " " original)
                 (title +:+ " " +:+ desc +:+ " " +:+ content) = false).
  { unfold phrase_bonus. destruct (_ && _); split; try done; lia. }
  split.
  - intros [= Hsum].
    assert (H1 : phrase_bonus title desc content original = 0) by lia.
    assert (H2 : sum_over (points 70 60 50 title desc content) (remove_dups original) = 0) by lia.
    assert (H3 : sum_over (points 10 7 5 title desc content)
                   (filter (λ w, w ∉ original) (remove_dups expanded)) = 0) by lia.
    split; [by apply Hbonus |].
    intros w Hw.
    destruct (decide (w ∈ original)) as [Hin | Hnin].
    + apply (points_zero 70 60 50); [lia.. |].
      apply Zo; [done |]. by apply elem_of_remove_dups.
    + apply elem_of_app in Hw as [? | Hw]; [done |].
      apply (points_zero 10 7 5); [lia.. |].
      apply Ze; [done |]. apply list_elem_of_filter. split; [done |].
      by apply elem_of_remove_dups.
  - intros [H1 Hall]. apply Hbonus in H1. f_equal.
    assert (H2 : sum_over (points 70 60 50 title desc content) (remove_dups original) = 0).
    { apply Zo. intros w Hw. apply points_zero; [lia.. |].
      apply Hall, elem_of_app. left. by apply elem_of_remove_dups. }
    assert (H3 : sum_over (points 10 7 5 title desc content)
                   (filter (λ w, w ∉ original) (remove_dups expanded)) = 0).
    { apply Ze. intros w Hw. apply points_zero; [lia.. |].
      apply list_elem_of_filter in Hw as [_ Hw].
      apply Hall, elem_of_app. right. by apply elem_of_remove_dups. }
    lia.
Qed.

(** X13. The score is 0, so that the ranker drops the document, exactly
    when the phrase bonus is not earned and no original or expanded word
    occurs in the title, the description or the content. *)
Theorem calculate_score_zero (doc : Document) (title desc content : string)
    (original expanded : list string) :
  field_text doc "title" = Some title →
  field_text doc "description" = Some desc →
  field_text doc "content" = Some content →
  calculate_score doc original expanded = Some 0 ↔
  (PyStr.truthy (PyStr.join " " original)
   && PyStr.contains (PyStr.join " " original)
        (title +:+ " " +:+ desc +:+ " " +:+ content) = false) ∧
  Forall (λ w, in_some_field title desc content w = false) (original ++ expanded).
Proof. apply score_zero_iff. Qed.

Lemma calculate_score_zero_witness :
  calculate_score demo_doc ["zig"] ["build"] = Some 0 ↔
  (PyStr.truthy (PyStr.join " " ["zig"])
   && PyStr.contains (PyStr.join " " ["zig"])
        ("quick results" +:+ " " +:+ "" +:+ " " +:+ "we run fast tests") = false) ∧
  Forall (λ w, in_some_field "quick results" "" "we run fast tests" w = false)
    (["zig"] ++ ["build"]).
Proof. apply calculate_score_zero; vm_compute; reflexivity. Defined.

Lemma calculate_score_found_word_aux (doc : Document) (title desc content : string)
    (original expanded : list string) (w : string) :
  field_text doc "title" = Some title →
  field_text doc "description" = Some desc →
  field_text doc "content" = Some content →
  w ∈ original →
  in_some_field title desc content w = true →
  ∃ score, calculate_score doc original expanded = Some score ∧ 50 ≤ score.
Proof.
  intros Ht Hd Hc Hw Hin.
  rewrite (calculate_score_fields doc title desc content _ _ Ht Hd Hc).
  eexists. split; [done |]. rewrite score_texts_closed_form.
  pose proof (phrase_bonus_bounds title desc content original) as Hb.
  assert (H70 : ∀ w, 0 ≤ points 70 60 50 title desc content w).
  { intros x. apply points_bounds; lia. }
  assert (H10 : ∀ w, 0 ≤ points 10 7 5 title desc content w).
  { intros x. apply points_bounds; lia. }
  pose proof (sum_over_nonneg _ (filter (λ w, w ∉ original) (remove_dups expanded)) H10) as He.
  assert (50 ≤ sum_over (points 70 60 50 title desc content) (remove_dups original)); [| lia].
  etrans; [apply (points_found 70 60 50 title desc content w); [lia.. | done] |].
  apply sum_over_elem; [done |]. by apply elem_of_remove_dups.
Qed.

(** X14. A word of the query that occurs in one of the three texts
    guarantees a positive score: at least 50 when it is an original word,
    at least 5 when it is an expanded word. *)
Theorem calculate_score_found_word (doc : Document) (title desc content : string)
    (original expanded : list string) (w : string) :
  field_text doc "title" = Some title →
  field_text doc "description" = Some desc →
  field_text doc "content" = Some content →
  w ∈ (original ++ expanded)%list →
  in_some_field title desc content w = true →
  ∃ score,
    calculate_score doc original expanded = Some score ∧
    5 ≤ score ∧ (w ∈ original → 50 ≤ score).
Proof.
  intros Ht Hd Hc Hw Hin.
  rewrite (calculate_score_fields doc title desc content _ _ Ht Hd Hc).
  eexists. split; [done |]. rewrite score_texts_closed_form.
  pose proof (phrase_bonus_bounds title desc content original) as Hb.
  assert (H70 : ∀ w, 0 ≤ points 70 60 50 title desc content w).
  { intros x. apply points_bounds; lia. }
  assert (H10 : ∀ w, 0 ≤ points 10 7 5 title desc content w).
  { intros x. apply points_bounds; lia. }
  pose proof (sum_over_nonneg _ (remove_dups original) H70) as Ho.
  pose proof (sum_over_nonneg _ (filter (λ w, w ∉ original) (remove_dups expanded)) H10) as He.
  assert (Horig : w ∈ original →
            50 ≤ sum_over (points 70 60 50 title desc content) (remove_dups original)).
  { intros Hwo. etrans; [apply (points_found 70 60 50 title desc content w); [lia.. | done] |].
    apply sum_over_elem; [done |]. by apply elem_of_remove_dups. }
  split; [| intros Hwo; specialize (Horig Hwo); lia].
  destruct (decide (w ∈ original)) as [Hwo | Hwo]; [specialize (Horig Hwo); lia |].
  apply elem_of_app in Hw as [? | Hwe]; [done |].
  assert (5 ≤ sum_over (points 10 7 5 title desc content)
                (filter (λ w, w ∉ original) (remove_dups expanded))); [| lia].
  etrans; [apply (points_found 10 7 5 title desc content w); [lia.. | done] |].
  apply sum_over_elem; [done |]. apply list_elem_of_filter. split; [done |].
  by apply elem_of_remove_dups.
Qed.

Lemma calculate_score_found_word_witness :
  ∃ score,
    calculate_score demo_doc ["fast"; "running"] ["run"] = Some score ∧
    5 ≤ score ∧ ("fast" ∈ ["fast"; "running"] → 50 ≤ score).
Proof.
  apply (calculate_score_found_word demo_doc "quick results" "" "we run fast tests").
  - vm_compute. reflexivity.
  - vm_compute. reflexivity.
  - vm_compute. reflexivity.
  - apply (bool_decide_eq_true_1 _). vm_compute. reflexivity.
  - vm_compute. reflexivity.
Defined.

(** X15. The scorer raises exactly when one of the three fields holds a
    value that is truthy and not a string (a number other than 0, [True],
    a non-empty list or object). *)
Theorem calculate_score_raises (doc : Document) (original expanded : list string) :
  calculate_score doc original expanded = None ↔
  ∃ key v, key ∈ score_fields ∧ doc !! key = Some v ∧
           Py.truthy v = true ∧ is_str v = false.
Proof.
  rewrite eq_None_not_Some, calculate_score_is_Some.
  unfold doc_ok. rewrite forallb_forall. split.
  - intros Hnot.
    destruct (decide (Exists (λ k, field_ok doc k = false) score_fields))
      as [Hex | Hnex].
    + apply Exists_exists in Hex as (k & Hk & Hbad).
      unfold field_ok in Hbad. destruct (doc !! k) as [v|] eqn:Hv; [| done].
      exists k, v. apply orb_false_iff in Hbad as [Ht Hs].
      apply negb_false_iff in Ht. done.
    + destruct Hnot. intros k Hk%list_elem_of_In.
      destruct (field_ok doc k) eqn:Hok; [done |].
      destruct Hnex. apply Exists_exists. by exists k.
  - intros (k & v & Hk & Hv & Ht & Hs) Hall.
    specialize (Hall k (proj1 (list_elem_of_In _ _) Hk)).
    unfold field_ok in Hall. rewrite Hv, Ht, Hs in Hall. done.
Qed.

(** X16. Only the title, the description and the content are read: a
    value under any other key does not change the result. *)
Theorem calculate_score_other_key (doc : Document) (key : string) (v : json)
    (original expanded : list string) :
  key ∉ score_fields →
  calculate_score (<[key := v]> doc) original expanded =
  calculate_score doc original expanded.
Proof.
  intros Hkey. apply calculate_score_ext, Forall_forall. intros k Hk.
  apply field_text_ext, lookup_insert_ne. by intros ->.
Qed.

Lemma calculate_score_other_key_witness :
  calculate_score (<["url" := JInt 7]> demo_doc) ["fast"] ["quick"] =
  calculate_score demo_doc ["fast"] ["quick"].
Proof.
  apply calculate_score_other_key.
  apply (bool_decide_eq_true_1 _). vm_compute. reflexivity.
Defined.

(** X17. The texts of a document are compared in lower case: writing a
    field in lower case does not change the result. *)
Theorem calculate_score_field_case (doc : Document) (key s : string)
    (original expanded : list string) :
  calculate_score (<[key := JStr (PyStr.lower s)]> doc) original expanded =
  calculate_score (<[key := JStr s]> doc) original expanded.
Proof.
  apply calculate_score_ext, Forall_forall. intros k _.
  destruct (decide (k = key)) as [-> | Hne].
  - rewrite (field_text_str _ key (PyStr.lower s)) by apply lookup_insert_eq.
    rewrite (field_text_str _ key s) by apply lookup_insert_eq.
    by rewrite PyStrMore.lower_idem.
  - apply field_text_ext. by rewrite !lookup_insert_ne.
Qed.

Lemma field_text_no_upper (doc : Document) (key t : string) :
  field_text doc key = Some t →
  PyStr.all_chars (λ c, negb (PyStr.is_upper c)) t = true.
Proof.
  unfold field_text, Py.or. destruct (Py.truthy (Py.get doc key)).
  - destruct (Py.get doc key); simpl; try done. intros [= <-].
    apply PyStrFacts.all_chars_map. intros c.
    by rewrite PyStrMore.lower_char_not_upper.
  - simpl. by intros [= <-].
Qed.

(** X18. The words are compared as they are given. On strings whose code
    points are all below 256, a word with a character that lower-casing
    changes (A to Z, and U+00C0 to U+00DE without U+00D7) occurs in no
    text of any document, and a query made of that word alone scores 0. *)
Theorem calculate_score_upper_case_word (doc : Document) (title desc content w : string) :
  field_text doc "title" = Some title →
  field_text doc "description" = Some desc →
  field_text doc "content" = Some content →
  PyStr.all_chars (λ c, negb (PyStr.is_upper c)) w = false →
  in_some_field title desc content w = false ∧
  calculate_score doc [w] [w] = Some 0.
Proof.
  intros Ht Hd Hc Hw.
  assert (Hno : ∀ t, PyStr.all_chars (λ c, negb (PyStr.is_upper c)) t = true →
                     PyStr.contains w t = false).
  { intros t Hall. destruct (PyStr.contains w t) eqn:Hin; [| done].
    by rewrite (PyStrMore.contains_all_chars _ w t Hin Hall) in Hw. }
  pose proof (field_text_no_upper _ _ _ Ht) as Hta.
  pose proof (field_text_no_upper _ _ _ Hd) as Hda.
  pose proof (field_text_no_upper _ _ _ Hc) as Hca.
  assert (Hfield : in_some_field title desc content w = false).
  { unfold in_some_field. by rewrite !Hno. }
  split; [done |].
  apply (score_zero_iff doc title desc content); try done. split.
  - apply andb_false_iff. right. apply Hno.
    rewrite !PyStrFacts.all_chars_app, Hta, Hda, Hca. done.
  - by repeat constructor.
Qed.

Lemma calculate_score_upper_case_word_witness :
  in_some_field "quick results" "" "we run fast tests" "Fast" = false ∧
  calculate_score demo_doc ["Fast"] ["Fast"] = Some 0.
Proof.
  apply (calculate_score_upper_case_word demo_doc); vm_compute; reflexivity.
Defined.

(** ** Search: further properties *)

Lemma collect_results_None (original expanded : list string)
    (documents : list Document) (results : list (Document * Z)) :
  Exists (λ doc, doc_ok doc = false) documents →
  collect_results original expanded documents results = None.
Proof.
  intros Hex. revert results.
  induction documents as [|doc documents IH]; intros results; [by inversion Hex |].
  simpl. destruct (calculate_score doc original expanded) as [s|] eqn:Hs; [| done].
  simpl. apply IH. apply Exists_cons in Hex as [Hbad | Hex]; [| done].
  assert (Hok : doc_ok doc = true) by (apply (calculate_score_is_Some doc original expanded); eauto).
  congruence.
Qed.

Lemma search_documents_hits (L : gmap string string) (query : string)
    (documents : list Document) (dict_body : Py.outcome (gmap string string)) :
  Forall (λ doc, doc_ok doc = true) documents →
  search_documents L query (Py.Returns documents) dict_body =
    Some (Py.sorted_reverse snd
            (positive_hits (preprocess_sentence query)
               (expand_words L (preprocess_sentence query) (load_dictionary dict_body))
               documents)).
Proof.
  intros Hok. unfold search_documents.
  by rewrite (collect_results_hits _ _ documents [] Hok).
Qed.

Lemma search_documents_sorted (L : gmap string string) (query : string)
    (db_body : Py.outcome (list Document))
    (dict_body : Py.outcome (gmap string string)) (results : list (Document * Z)) :
  search_documents L query db_body dict_body = Some results →
  StronglySorted (key_ge snd) results.
Proof.
  unfold search_documents. destruct db_body as [e | documents].
  - intros [= <-]. constructor.
  - destruct (collect_results _ _ documents []) as [res|]; simpl; [| done].
    intros [= <-]. apply sorted_reverse_sorted.
Qed.

Lemma positive_hits_no_words (documents : list Document) :
  positive_hits [] [] documents = [].
Proof.
  apply elem_of_nil_inv. intros [doc score].
  rewrite elem_of_positive_hits. intros (_ & Hs & Hpos).
  unfold calculate_score in Hs.
  destruct (field_text doc "title"); [| done].
  destruct (field_text doc "description"); [| done].
  destruct (field_text doc "content"); [| done].
  injection Hs as <-. by vm_compute in Hpos.
Qed.

(** X20. A query that normalises to no token (empty, punctuation only,
    stopwords only) has no result on any collection of readable
    documents. *)
Theorem search_documents_empty_query (L : gmap string string) (query : string)
    (documents : list Document) (dict_body : Py.outcome (gmap string string)) :
  preprocess_sentence query = [] →
  Forall (λ doc, doc_ok doc = true) documents →
  search_documents L query (Py.Returns documents) dict_body = Some [].
Proof.
  intros Hq Hok. rewrite (search_documents_hits L query documents dict_body Hok).
  rewrite Hq. unfold expand_words, expanded_set. simpl.
  rewrite elements_empty. by rewrite positive_hits_no_words.
Qed.

Lemma search_documents_empty_query_witness :
  search_documents demo_lemmatizer "the of and!"
    (Py.Returns [demo_doc; {[ "title" := JStr "The end" ]}])
    (Py.Returns demo_dictionary) = Some [].
Proof.
  apply search_documents_empty_query.
  - vm_compute. reflexivity.
  - repeat (constructor; [vm_compute; reflexivity |]). constructor.
Defined.

(** X21. In a collection of readable documents, a document one of whose
    three texts holds a token of the normalised query is in the result,
    with a score of at least 50. *)
Theorem search_documents_finds (L : gmap string string) (query : string)
    (documents : list Document) (dict_body : Py.outcome (gmap string string))
    (doc : Document) (key t w : string) :
  Forall (λ doc, doc_ok doc = true) documents →
  doc ∈ documents →
  key ∈ score_fields →
  field_text doc key = Some t →
  w ∈ preprocess_sentence query →
  PyStr.contains w t = true →
  ∃ results score,
    search_documents L query (Py.Returns documents) dict_body = Some results ∧
    (doc, score) ∈ results ∧ 50 ≤ score.
Proof.
  intros Hok Hdoc Hkey Ht Hw Hin.
  rewrite (search_documents_hits L query documents dict_body Hok).
  set (original := preprocess_sentence query).
  set (expanded := expand_words L original (load_dictionary dict_body)).
  assert (Hdok : doc_ok doc = true) by (rewrite Forall_forall in Hok; by apply Hok).
  destruct (calculate_score_texts doc original expanded Hdok)
    as (tt & td & tc & Htt & Htd & Htc & Hs).
  assert (Hfound : in_some_field tt td tc w = true).
  { unfold in_some_field, score_fields in *.
    rewrite !elem_of_cons, elem_of_nil in Hkey.
    destruct Hkey as [-> | [-> | [-> | []]]].
    - rewrite Ht in Htt. injection Htt as <-. by rewrite Hin.
    - rewrite Ht in Htd. injection Htd as <-. rewrite Hin. by rewrite orb_true_r.
    - rewrite Ht in Htc. injection Htc as <-. rewrite Hin. by rewrite orb_true_r. }
  destruct (calculate_score_found_word_aux doc tt td tc original expanded w
              Htt Htd Htc Hw Hfound) as (score & Hscore & H50).
  eexists. exists score. split; [done |]. split; [| done].
  rewrite (sorted_reverse_perm snd). apply elem_of_positive_hits.
  split; [done |]. split; [done | lia].
Qed.

Lemma search_documents_finds_witness :
  ∃ results score,
    search_documents demo_lemmatizer "Fast running!"
      (Py.Returns [ {[ "title" := JStr "Slow" ]}; demo_doc ])
      (Py.Returns demo_dictionary) = Some results ∧
    (demo_doc, score) ∈ results ∧ 50 ≤ score.
Proof.
  apply (search_documents_finds demo_lemmatizer "Fast running!"
           [ {[ "title" := JStr "Slow" ]}; demo_doc ] (Py.Returns demo_dictionary)
           demo_doc "content" "we run fast tests" "fast").
  - repeat (constructor; [vm_compute; reflexivity |]). constructor.
  - apply elem_of_cons. right. apply elem_of_cons. by left.
  - apply (bool_decide_eq_true_1 _). vm_compute. reflexivity.
  - vm_compute. reflexivity.
  - apply (bool_decide_eq_true_1 _). vm_compute. reflexivity.
  - vm_compute. reflexivity.
Defined.

(** ** Main: properties *)

Lemma elem_of_enumerate {A} (l : list A) (start i : nat) (x : A) :
  (i, x) ∈ enumerate l start ↔ (start ≤ i)%nat ∧ l !! (i - start)%nat = Some x.
Proof.
  revert start. induction l as [|y l IH]; intros start; simpl.
  - rewrite elem_of_nil. split; [done | by intros [_ ?]].
  - rewrite elem_of_cons, IH. split.
    + intros [[= -> ->] | [Hle Hl]].
      * split; [lia |]. by rewrite Nat.sub_diag.
      * split; [lia |].
        replace (i - start)%nat with (S (i - S start)) by lia. done.
    + intros [Hle Hl]. destruct (decide (i = start)) as [-> | Hne].
      * left. rewrite Nat.sub_diag in Hl. by injection Hl as ->.
      * right. split; [lia |].
        replace (i - start)%nat with (S (i - S start)) in Hl by lia. done.
Qed.

Lemma StronglySorted_lookup {A} (R : A → A → Prop) (l : list A) (i j : nat) (a b : A) :
  StronglySorted R l → (i < j)%nat → l !! i = Some a → l !! j = Some b → R a b.
Proof.
  intros Hs. revert i j. induction Hs as [|x l Hl IH Hx]; intros i j Hij Hi Hj.
  - done.
  - destruct j as [|j]; [lia |]. destruct i as [|i]; simpl in *.
    + injection Hi as ->. rewrite Forall_forall in Hx.
      apply Hx. by eapply list_elem_of_lookup_2.
    + apply (IH i j); [lia | done | done].
Qed.

(** X22. When the search has results, [main] announces the smaller of 10
    and their number, and prints a result line exactly for the first ten
    results, numbered from 1 in ranking order, each with its score and its
    title ("N/A" when the document has no title key); no result left out
    has a larger score than a result shown. *)
Theorem main_top_ten (L : gmap string string) (argv : list string)
    (db_body : Py.outcome (list Document))
    (dict_body : Py.outcome (gmap string string))
    (results : list (Document * Z)) :
  length argv = 3%nat →
  search_documents L (default "" (argv !! 1%nat)) db_body dict_body = Some results →
  results ≠ [] →
  ∃ out,
    main L argv db_body dict_body =
      Returned (TopLine (Nat.min 10 (length results)) :: out) ∧
    (∀ i score title,
       ResultLine i score title ∈ out ↔
       ∃ doc, (1 ≤ i ≤ 10)%nat ∧ results !! (i - 1)%nat = Some (doc, score) ∧
              title = default (JStr "N/A") (doc !! "title")) ∧
    (∀ i j d s d' s',
       (i < 10 ≤ j)%nat → results !! i = Some (d, s) → results !! j = Some (d', s') →
       s' ≤ s).
Proof.
  intros Hargv Hsearch Hne.
  exists (flat_map result_lines (enumerate (take 10 results) 1)).
  split; [| split].
  - unfold main. rewrite Hargv, Hsearch. simpl.
    destruct results; [done | done].
  - intros i score title. rewrite list_elem_of_In, in_flat_map. split.
    + intros ([n [doc s]] & Hentry%list_elem_of_In & Hline).
      apply elem_of_enumerate in Hentry as [Hle Hl].
      apply lookup_take_Some in Hl as [Hl Hlt].
      simpl in Hline. destruct Hline as [[= <- <- <-] | [? | []]]; [| done].
      exists doc. split; [lia | done].
    + intros (doc & Hi & Hl & ->). exists (i, (doc, score)). split.
      * apply list_elem_of_In, elem_of_enumerate. split; [lia |].
        apply lookup_take_Some. split; [done | lia].
      * simpl. by left.
  - intros i j d s d' s' Hij Hi Hj.
    apply (StronglySorted_lookup (key_ge snd) results i j (d, s) (d', s'));
      [| lia | done | done].
    by eapply search_documents_sorted.
Qed.

Lemma main_top_ten_witness :
  ∃ out,
    main ∅ ["search.py"; "fast search"; "db.json"]
      (Py.Returns [ {[ "content" := JStr "a fast car" ]};
                    {[ "title" := JStr "Fast search" ]} ])
      (Py.Raises Py.OSError) =
      Returned (TopLine (Nat.min 10
                  (length [ (({[ "title" := JStr "Fast search" ]} : Document), 230);
                            ({[ "content" := JStr "a fast car" ]}, 50) ])) :: out) ∧
    (∀ i score title,
       ResultLine i score title ∈ out ↔
       ∃ doc, (1 ≤ i ≤ 10)%nat ∧
              [ (({[ "title" := JStr "Fast search" ]} : Document), 230);
                ({[ "content" := JStr "a fast car" ]}, 50) ] !! (i - 1)%nat
                = Some (doc, score) ∧
              title = default (JStr "N/A") (doc !! "title")) ∧
    (∀ i j d s d' s',
       (i < 10 ≤ j)%nat →
       [ (({[ "title" := JStr "Fast search" ]} : Document), 230);
         ({[ "content" := JStr "a fast car" ]}, 50) ] !! i = Some (d, s) →
       [ (({[ "title" := JStr "Fast search" ]} : Document), 230);
         ({[ "content" := JStr "a fast car" ]}, 50) ] !! j = Some (d', s') →
       s' ≤ s).
Proof.
  apply (main_top_ten ∅ ["search.py"; "fast search"; "db.json"]).
  - reflexivity.
  - vm_compute. reflexivity.
  - discriminate.
Defined.

(** ** Resources of any shape: facts *)







(** When the expansion and the result loop raise. *)
Lemma raw_expand_step_None (L : gmap string string) (dictionary : json)
    (expanded : gset string) (w : string) :
  Raw.expand_step L dictionary expanded w = None ↔ entry_ok dictionary w = false.
Proof.
  unfold Raw.expand_step, entry_ok, Raw.get_entry.
  destruct dictionary as [| | | | |l|m]; simpl; try (split; done).
  destruct (m !! w) as [v|]; simpl.
  - destruct v; simpl; split; done.
  - split; done.
Qed.

Lemma raw_expand_loop_None (L : gmap string string) (dictionary : json)
    (expanded : gset string) (words : list string) :
  Raw.expand_loop L dictionary expanded words = None ↔
  ∃ w, w ∈ words ∧ entry_ok dictionary w = false.
Proof.
  revert expanded. induction words as [|w words IH]; intros expanded; simpl.
  - split; [done | intros (w & Hw & _); by apply elem_of_nil in Hw].
  - destruct (Raw.expand_step L dictionary expanded w) as [expanded'|] eqn:Hstep; simpl.
    + rewrite IH. split.
      * intros (w' & Hw' & Hbad). exists w'. split; [by right | done].
      * intros (w' & Hw' & Hbad). apply elem_of_cons in Hw' as [-> | Hw'].
        -- apply (proj2 (raw_expand_step_None L dictionary expanded w)) in Hbad.
           congruence.
        -- by exists w'.
    + split; [| done]. intros _. exists w. split; [left |].
      by apply (raw_expand_step_None L dictionary expanded w).
Qed.

Lemma raw_expand_words_None (L : gmap string string) (dictionary : json)
    (words : list string) :
  Raw.expand_words L words dictionary = None ↔
  ∃ w, w ∈ words ∧ entry_ok dictionary w = false.
Proof.
  unfold Raw.expand_words. rewrite fmap_None. apply raw_expand_loop_None.
Qed.

Lemma raw_collect_items_None (original expanded : list string)
    (items : list json) (results : list (Document * Z)) :
  Raw.collect_items original expanded items results = None ↔
  ∃ item, item ∈ items ∧ item_ok item = false.
Proof.
  revert results. induction items as [|item items IH]; intros results.
  - simpl. split; [done | intros (i & Hi & _); by apply elem_of_nil in Hi].
  - destruct item as [| | | | |l|doc];
      try (simpl; split; [intros _; eexists; split; [left | done] | done]).
    simpl. destruct (calculate_score doc original expanded) as [score|] eqn:Hs; simpl.
    + assert (Hok : doc_ok doc = true)
        by (apply (calculate_score_is_Some doc original expanded); eauto).
      rewrite IH. split.
      * intros (i & Hi & Hbad). exists i. split; [by right | done].
      * intros (i & Hi & Hbad). apply elem_of_cons in Hi as [-> | Hi].
        -- simpl in Hbad. congruence.
        -- by exists i.
    + split; [| done]. intros _. exists (JObj doc). split; [left |]. simpl.
      destruct (doc_ok doc) eqn:Hok; [| done].
      apply (calculate_score_is_Some doc original expanded) in Hok as [? ?]. congruence.
Qed.

(** ** Dictionary loading on any source *)




Example load_dictionary_read_failure_demo :
  Raw.search_documents demo_lemmatizer "fast running"
    (Py.Returns (JArr (JObj <$> [ {[ "title" := JStr "Slow" ]}; demo_doc ])))
    (Py.Raises Py.JSONDecodeError) = Some [ (demo_doc, 55) ].
Proof. vm_compute. reflexivity. Qed.

(** ** When the search raises *)

(** X19. On a database that could be read, [search_documents] raises
    exactly in these cases: a token of the query meets a dictionary that
    is not an object, or that holds something else than a string under the
    token; the database value cannot be iterated (a number, a boolean,
    null); or an item of the database is not an object, or is an object
    with a truthy non-string title, description or content. One such item
    makes the whole search raise, whatever the other documents are. *)
Theorem search_documents_raises (L : gmap string string) (query : string)
    (documents : json) (dict_body : Py.outcome json) :
  Raw.search_documents L query (Py.Returns documents) dict_body = None ↔
  (∃ w, w ∈ preprocess_sentence query ∧
        entry_ok (Raw.load_dictionary dict_body) w = false) ∨
  Raw.iterate documents = None ∨
  (∃ items item, Raw.iterate documents = Some items ∧
                 item ∈ items ∧ item_ok item = false).
Proof.
  unfold Raw.search_documents.
  rewrite <- (raw_expand_words_None L).
  destruct (Raw.expand_words L (preprocess_sentence query)
              (Raw.load_dictionary dict_body)) as [expanded|]; simpl;
    [| split; [by left | done]].
  destruct (Raw.iterate documents) as [items|]; simpl;
    [| split; [by right; left | done]].
  destruct (Raw.collect_items (preprocess_sentence query) expanded items [])
    as [results|] eqn:Hc; simpl.
  - split; [done |]. intros [? | [? | (items' & item & [= <-] & Hitem & Hbad)]];
      [done | done |].
    assert (Raw.collect_items (preprocess_sentence query) expanded items [] = None)
      by (apply raw_collect_items_None; eauto).
    congruence.
  - split; [| done]. intros _. right. right.
    apply raw_collect_items_None in Hc as (item & Hitem & Hbad).
    by exists items, item.
Qed.

Example search_documents_raises_demo :
  Raw.search_documents ∅ "zig"
    (Py.Returns (JArr [JObj {[ "title" := JStr "Zig" ]}; JStr "zig"]))
    (Py.Returns (JObj ∅)) = None ∧
  Raw.search_documents ∅ "zig" (Py.Returns (JInt 3)) (Py.Returns (JObj ∅)) = None ∧
  Raw.search_documents ∅ "zig" (Py.Returns (JObj ∅)) (Py.Returns (JObj ∅)) = Some [] ∧
  Raw.search_documents ∅ "the" (Py.Returns (JArr [])) (Py.Returns (JInt 3)) = Some [].
Proof. vm_compute. repeat split; reflexivity. Qed.
